(** * Batch construction of utils/dataset.py: a shallow embedding

    The development follows [src/utils/dataset.py]: the vocoder split
    ([get_vocoder_datasets]), the two collators ([collate_vocoder],
    [collate_tts]), the TTS index ([get_tts_dataset], [TTSDataset]) and the
    length-binned sampler ([BinnedLengthSampler]).

    Python integers are [Z]; list positions are [nat]; exceptions are values
    of [exn] carried by [result]; the two global random generators
    ([random], [np.random]) are an explicit stream of raw draws that every
    drawing function consumes and returns. *)

From Stdlib Require Import ZArith Lia SpecFloat.
From stdpp Require Import base list sorting gmap strings.

Local Open Scope Z_scope.

(** ** Exceptions and the result monad *)

Inductive exn : Set :=
  | ZeroDivisionError
  | ValueError
  | KeyError
  | IndexError
  | AssertionError
  | FileNotFoundError.

Inductive result (A : Type) : Type :=
  | Ok (a : A)
  | Raise (e : exn).
Arguments Ok {A} a.
Arguments Raise {A} e.

Definition bind {A B} (m : result A) (k : A → result B) : result B :=
  match m with
  | Ok a => k a
  | Raise e => Raise e
  end.

Notation "'let*' x ':=' m 'in' k" := (bind m (fun x => k))
  (at level 10, x name, m at level 100, k at level 200).

Definition is_Ok {A} (r : result A) : Prop :=
  match r with Ok _ => True | Raise _ => False end.

(** [a // b] and [a % b]: Rocq's [Z.div] and [Z.modulo] round like Python's
    (towards minus infinity, remainder with the sign of the divisor); a zero
    divisor raises. *)
Definition py_floordiv (a b : Z) : result Z :=
  if b =? 0 then Raise ZeroDivisionError else Ok (a / b).

Definition py_mod (a b : Z) : result Z :=
  if b =? 0 then Raise ZeroDivisionError else Ok (a mod b).

(** [mapM]: a list comprehension whose body may raise; the first exception
    (in list order) propagates. *)
Fixpoint mapM {A B} (f : A → result B) (l : list A) : result (list B) :=
  match l with
  | [] => Ok []
  | a :: l' => let* b := f a in let* bs := mapM f l' in Ok (b :: bs)
  end.

(** ** Python sequences: [len], indexing and slicing *)

Definition len {A} (l : list A) : Z := Z.of_nat (length l).

(** Slice bounds are adjusted as CPython's [PySlice_AdjustIndices] does for
    step 1: a negative bound counts from the end, and every bound is
    clamped into [0, len]. *)
Definition adjust_index (n i : Z) : Z :=
  if i <? 0 then Z.max 0 (i + n) else Z.min i n.

Definition slice_bounds (n : Z) (start stop : option Z) : nat * nat :=
  let a := match start with None => 0 | Some s => adjust_index n s end in
  let b := match stop with None => n | Some s => adjust_index n s end in
  (Z.to_nat a, Z.to_nat b).

(** [l[start:stop]] on a Python list or as a copy of an array. *)
Definition py_slice {A} (l : list A) (start stop : option Z) : list A :=
  let '(a, b) := slice_bounds (len l) start stop in
  take (b - a)%nat (drop a l).

(** [l[i]] with Python's negative indexing; out of range raises. *)
Definition py_index {A} (l : list A) (i : Z) : result A :=
  let j := if i <? 0 then i + len l else i in
  if (j <? 0) || (len l <=? j) then Raise IndexError
  else match l !! Z.to_nat j with
       | Some a => Ok a
       | None => Raise IndexError
       end.

(** [max(xs)]: raises on the empty sequence. *)
Definition py_max (xs : list Z) : result Z :=
  match xs with
  | [] => Raise ValueError
  | x :: xs' => Ok (foldl Z.max x xs')
  end.

(** [m] is the greatest element of [xs], for the statements about [max]. *)
Definition is_max (m : Z) (xs : list Z) : Prop :=
  m ∈ xs ∧ Forall (fun x => x ≤ m) xs.

(** ** Random generators

    The raw output of a generator is a stream of naturals; [randbelow n]
    reduces the next raw draw into [0, n).  Every behaviour of the real
    generators is the behaviour of the model on some stream, so a statement
    for all streams covers every run. *)

Definition rng : Type := list nat.

Definition next_raw (g : rng) : nat * rng :=
  match g with
  | [] => (0%nat, [])
  | r :: g' => (r, g')
  end.

Definition randbelow (n : nat) (g : rng) : nat * rng :=
  let '(r, g') := next_raw g in (r `mod` n, g')%nat.

(** [x[i], x[j] = x[j], x[i]]: both reads happen before the two writes. *)
Definition swap {A} (x : list A) (i j : nat) : list A :=
  match x !! i, x !! j with
  | Some xi, Some xj => <[j := xi]> (<[i := xj]> x)
  | _, _ => x
  end.

(** [random.shuffle(x)]:
    [for i in reversed(range(1, len(x))): j = randbelow(i + 1); swap]. *)
Fixpoint shuffle_from {A} (i : nat) (x : list A) (g : rng) : list A * rng :=
  match i with
  | O => (x, g)
  | S i' =>
      let '(j, g') := randbelow (S i) g in
      shuffle_from i' (swap x i j) g'
  end.

Definition shuffle {A} (x : list A) (g : rng) : list A * rng :=
  shuffle_from (length x - 1) x g.

(** [np.random.randint(low, high)]: raises [ValueError] when [low >= high]. *)
Definition randint (low high : Z) (g : rng) : result Z * rng :=
  if high <=? low then (Raise ValueError, g)
  else
    let '(r, g') := randbelow (Z.to_nat (high - low)) g in
    (Ok (low + Z.of_nat r), g').

(** ** Arrays

    A two-dimensional array is its shape and its cells; the last axis is
    time.  Cells outside the shape are never read by the code below. *)

Record array2 (A : Type) : Type := Array2 {
  n_rows : nat;
  n_cols : nat;
  cell : nat → nat → A
}.
Arguments Array2 {A} _ _ _.
Arguments n_rows {A} _.
Arguments n_cols {A} _.
Arguments cell {A} _ _ _.

(** [x[:, start:stop]] *)
Definition slice_cols {A} (x : array2 A) (start stop : option Z) : array2 A :=
  let '(a, b) := slice_bounds (Z.of_nat (n_cols x)) start stop in
  Array2 (n_rows x) (b - a) (fun c t => cell x c (a + t)%nat).

(** An elementwise operation on a whole array. *)
Definition array2_map {A B} (f : A → B) (x : array2 A) : array2 B :=
  Array2 (n_rows x) (n_cols x) (fun c t => f (cell x c t)).

Definition same_shape {A} (x y : array2 A) : bool :=
  (n_rows x =? n_rows y)%nat && (n_cols x =? n_cols y)%nat.

(** [np.stack]: needs at least one array, and all of one shape.  The stacked
    array is kept as the list of its slices along the new leading axis. *)
Definition np_stack2 {A} (xs : list (array2 A)) : result (list (array2 A)) :=
  match xs with
  | [] => Raise ValueError
  | x :: xs' => if forallb (same_shape x) xs' then Ok xs else Raise ValueError
  end.

Definition np_stack1 {A} (xs : list (list A)) : result (list (list A)) :=
  match xs with
  | [] => Raise ValueError
  | x :: xs' =>
      if forallb (fun y => (length y =? length x)%nat) xs' then Ok xs
      else Raise ValueError
  end.

(** A basic slice of a one-dimensional numpy array is a view: it names a
    region of the array's storage, and writes through it land there. *)
Record view : Set := View { v_lo : nat; v_hi : nat }.

Definition np_view (n : nat) (start stop : option Z) : view :=
  let '(a, b) := slice_bounds (Z.of_nat n) start stop in View a b.

Definition view_len (v : view) : nat := (v_hi v - v_lo v)%nat.

Definition view_read {A} (store : list A) (v : view) : list A :=
  take (view_len v) (drop (v_lo v) store).

Definition view_write {A} (store : list A) (v : view) (x : list A) : list A :=
  take (v_lo v) store ++ x ++ drop (v_lo v + view_len v) store.

(** [random.shuffle(v)] on a view: the swaps read and write the region of
    the storage the view names, and nothing else. *)
Definition shuffle_view {A} (store : list A) (v : view) (g : rng)
  : list A * rng :=
  let '(x, g') := shuffle (view_read store v) g in
  (view_write store v x, g').

(** [range(n)] *)
Definition range (n : Z) : list Z := Z.of_nat <$> seq 0 (Z.to_nat n).

(** ** Scalar types of the stored spectrograms

    [np.load] returns the array in the floating-point format it was saved
    in, and the arithmetic of [collate_tts] happens in that format.  A
    format gives the value of an integer constant, product and difference;
    in every IEEE format [0 * 8 - 4] is [-4], exactly. *)
Class Dtype : Type := {
  scalar : Type;
  of_int : Z → scalar;
  fmul : scalar → scalar → scalar;
  fsub : scalar → scalar → scalar;
  rescale_zero : fsub (fmul (of_int 0) (of_int 8)) (of_int 4) = of_int (-4)
}.

Definition ieee_of_int (prec emax : Z) (z : Z) : spec_float :=
  binary_normalize prec emax z 0 false.

#[global, refine] Instance binary32 : Dtype := {|
  scalar := spec_float;
  of_int := ieee_of_int 24 128;
  fmul := SFmul 24 128;
  fsub := SFsub 24 128
|}.
Proof. reflexivity. Defined.

#[global, refine] Instance binary64 : Dtype := {|
  scalar := spec_float;
  of_int := ieee_of_int 53 1024;
  fmul := SFmul 53 1024;
  fsub := SFsub 53 1024
|}.
Proof. reflexivity. Defined.

(** ** Configuration and storage *)

(** The options of [hparams] that [utils/dataset.py] reads. *)
Record HParams : Type := {
  voc_seq_len : Z;
  hop_length : Z;
  voc_pad : Z;
  voc_test_samples : Z;
  bits : Z;
  tts_max_input_len : Z;
  tts_r : Z;
  tts_bin_lengths : bool;
  tts_cleaner_names : list string
}.

(** What lies under [path]: the two pickles (absent when the file is) and
    the per-utterance arrays of [mel/] and [quant/], keyed by id. *)
Record storage (F : Type) : Type := {
  dataset_pkl : option (list (string * Z));
  text_dict_pkl : option (gmap string string);
  mel_dir : gmap string (array2 F);
  quant_dir : gmap string (list Z)
}.
Arguments dataset_pkl {F} _.
Arguments text_dict_pkl {F} _.
Arguments mel_dir {F} _.
Arguments quant_dir {F} _.

Definition load {A} (file : option A) : result A :=
  match file with
  | Some a => Ok a
  | None => Raise FileNotFoundError
  end.

(** [d[k]] on a dict *)
Definition dict_get {V} (d : gmap string V) (k : string) : result V :=
  match d !! k with
  | Some v => Ok v
  | None => Raise KeyError
  end.

(** ** BinnedLengthSampler *)

(** [torch.sort] of the lengths, second component: the positions in
    ascending order of length.  How torch orders equal lengths is its own
    matter; the statements below use only that the result is sorted and is
    a permutation of the positions. *)
Definition length_at (lengths : list Z) (i : nat) : Z :=
  default 0 (lengths !! i).

Definition length_le (lengths : list Z) (i j : nat) : Prop :=
  length_at lengths i ≤ length_at lengths j.

#[global] Instance length_le_dec lengths i j :
  Decision (length_le lengths i j).
Proof. unfold length_le. apply _. Defined.

Definition argsort (lengths : list Z) : list nat :=
  merge_sort (length_le lengths) (seq 0 (length lengths)).

Record BinnedLengthSampler : Set := Sampler {
  idx : list nat;
  batch_size : Z;
  bin_size : Z
}.

(** [__init__]; a [bin_size] of [None] or [0] is falsy. *)
Definition BinnedLengthSampler_init
    (lengths : list Z) (batch_size : Z) (bin_size : option Z)
  : result BinnedLengthSampler :=
  let idx := argsort lengths in
  let bin_size :=
    match bin_size with
    | Some b => if b =? 0 then batch_size * 4 else b
    | None => batch_size * 4
    end in
  let* m := py_mod bin_size batch_size in
  if m =? 0 then Ok (Sampler idx batch_size bin_size)
  else Raise AssertionError.

(** The loop of [__iter__]: each bin is a view of [idx], shuffled in place
    and appended to [bins]. *)
Fixpoint fill_bins (bin_size : Z) (todo : list Z)
    (idx : list nat) (bins : list view) (g : rng)
  : list nat * list view * rng :=
  match todo with
  | [] => (idx, bins, g)
  | i :: todo' =>
      let this_bin :=
        np_view (length idx) (Some (i * bin_size)) (Some ((i + 1) * bin_size)) in
      let '(idx', g') := shuffle_view idx this_bin g in
      fill_bins bin_size todo' idx' (bins ++ [this_bin]) g'
  end.

(** [np.stack(bins).reshape(-1)]: the views are read when they are stacked. *)
Definition stack_bins (idx : list nat) (bins : list view)
  : result (list nat) :=
  let* rows := np_stack1 (view_read idx <$> bins) in
  Ok (concat rows).

(** [__iter__]: the indices it yields, the sampler afterwards ([self.idx]
    shares its storage with the array the bins are views of), and the
    generator afterwards. *)
Definition BinnedLengthSampler_iter (self : BinnedLengthSampler) (g : rng)
  : result (list nat) * BinnedLengthSampler * rng :=
  let with_idx i := Sampler i (batch_size self) (bin_size self) in
  match py_floordiv (len (idx self)) (bin_size self) with
  | Raise e => (Raise e, self, g)
  | Ok n_bins =>
      let '(idx1, bins, g1) :=
        fill_bins (bin_size self) (range n_bins) (idx self) [] g in
      let '(bins, g2) := shuffle bins g1 in
      match stack_bins idx1 bins with
      | Raise e => (Raise e, with_idx idx1, g2)
      | Ok binned_idx =>
          if len binned_idx <? len idx1 then
            let last_bin :=
              np_view (length idx1) (Some (len binned_idx)) None in
            let '(idx2, g3) := shuffle_view idx1 last_bin g2 in
            let binned_indices := binned_idx ++ view_read idx2 last_bin in
            (Ok binned_idx, with_idx idx2, g3)
          else (Ok binned_idx, with_idx idx1, g2)
      end
  end.

Definition BinnedLengthSampler_len (self : BinnedLengthSampler) : Z :=
  len (idx self).

(** For the statements about the sampler: the [k]-th run of [b] consecutive
    positions of an array, the view that names it, the number of full bins,
    and the samplers that zero or more calls of [__iter__] lead to. *)
Definition chunk {A} (b k : nat) (l : list A) : list A :=
  take b (drop (k * b) l).

Definition bin_view (b k : nat) : view := View (k * b) (k * b + b).

Definition n_bins (self : BinnedLengthSampler) : nat :=
  Z.to_nat (len (idx self) / bin_size self).

Inductive iterated (s0 : BinnedLengthSampler) : BinnedLengthSampler → Prop :=
  | iterated_0 : iterated s0 s0
  | iterated_S s g :
      iterated s0 s → iterated s0 (BinnedLengthSampler_iter s g).1.2.

(** ** DataLoader

    [torch.utils.data.DataLoader] is kept as the record of the arguments it
    was built with; the checks torch itself makes on them are not part of
    [utils/dataset.py] and are not modelled. *)
Inductive collate_fn : Set := default_collate | collate_vocoder_fn | collate_tts_fn.

Record DataLoader (D : Type) : Type := {
  dl_dataset : D;
  dl_collate_fn : collate_fn;
  dl_batch_size : Z;
  dl_sampler : option BinnedLengthSampler;
  dl_num_workers : Z;
  dl_shuffle : bool;
  dl_pin_memory : bool
}.
Arguments dl_dataset {D} _.
Arguments dl_collate_fn {D} _.
Arguments dl_batch_size {D} _.
Arguments dl_sampler {D} _.
Arguments dl_num_workers {D} _.
Arguments dl_shuffle {D} _.
Arguments dl_pin_memory {D} _.

(** ** WaveRNN/Vocoder dataset *)

Section Vocoder.
(** [F]: scalars of the stored spectrograms; [F32]: [np.float32]. *)
Context {F F32 : Type}.
Variable hp : HParams.
(** The state of [random] after [random.seed(a)]. *)
Variable seed : Z → rng.
Variable astype_float32 : F → F32.
(** [label_2_float(code.float(), bits)] of [utils.dsp], on one sample. *)
Variable label_2_float : Z → Z → F32.

Record VocoderDataset : Type := { voc_metadata : list string }.

Definition VocoderDataset_getitem
    (st : storage F) (self : VocoderDataset) (index : Z)
  : result (array2 F * list Z) :=
  let* file := py_index (voc_metadata self) index in
  let* m := load (mel_dir st !! file) in
  let* x := load (quant_dir st !! file) in
  Ok (m, x).

Definition VocoderDataset_len (self : VocoderDataset) : Z :=
  len (voc_metadata self).

(** The split of [get_vocoder_datasets]: seeded shuffle of the ids, then
    the two negative slices. *)
Definition vocoder_split (dataset : list (string * Z))
  : list string * list string :=
  let dataset_ids := fst <$> dataset in
  let g := seed 1234 in
  let '(dataset_ids, _) := shuffle dataset_ids g in
  let test_ids := py_slice dataset_ids (Some (- voc_test_samples hp)) None in
  let train_ids := py_slice dataset_ids None (Some (- voc_test_samples hp)) in
  (train_ids, test_ids).

(** The ids after [random.seed(1234); random.shuffle(dataset_ids)], for
    the statements about the split. *)
Definition shuffled_ids (dataset : list (string * Z)) : list string :=
  (shuffle (fst <$> dataset) (seed 1234)).1.

Definition get_vocoder_datasets (st : storage F) (batch_size : Z)
  : result (DataLoader VocoderDataset * DataLoader VocoderDataset) :=
  let* dataset := load (dataset_pkl st) in
  let '(train_ids, test_ids) := vocoder_split dataset in
  let train_dataset := {| voc_metadata := train_ids |} in
  let test_dataset := {| voc_metadata := test_ids |} in
  let train_set :=
    {| dl_dataset := train_dataset; dl_collate_fn := collate_vocoder_fn;
       dl_batch_size := batch_size; dl_sampler := None;
       dl_num_workers := 2; dl_shuffle := true; dl_pin_memory := true |} in
  let test_set :=
    {| dl_dataset := test_dataset; dl_collate_fn := default_collate;
       dl_batch_size := 1; dl_sampler := None;
       dl_num_workers := 1; dl_shuffle := false; dl_pin_memory := true |} in
  Ok (train_set, test_set).

(** [[np.random.randint(0, offset) for offset in max_offsets]] *)
Fixpoint draw_offsets (max_offsets : list Z) (g : rng)
  : result (list Z) * rng :=
  match max_offsets with
  | [] => (Ok [], g)
  | offset :: rest =>
      match randint 0 offset g with
      | (Raise e, g') => (Raise e, g')
      | (Ok o, g') =>
          match draw_offsets rest g' with
          | (Raise e, g'') => (Raise e, g'')
          | (Ok os, g'') => (Ok (o :: os), g'')
          end
      end
  end.

(** The locals of [collate_vocoder] up to the two lists of crops. *)
Record vocoder_crops : Type := {
  mel_win : Z;
  max_offsets : list Z;
  mel_offsets : list Z;
  sig_offsets : list Z;
  mels : list (array2 F);
  labels : list (list Z)
}.

Definition collate_vocoder_crops (batch : list (array2 F * list Z)) (g : rng)
  : result vocoder_crops * rng :=
  match py_floordiv (voc_seq_len hp) (hop_length hp) with
  | Raise e => (Raise e, g)
  | Ok q =>
      let mel_win := q + 2 * voc_pad hp in
      let max_offsets :=
        (fun x => Z.of_nat (n_cols x.1) - (mel_win + 2 * voc_pad hp)) <$> batch in
      match draw_offsets max_offsets g with
      | (Raise e, g') => (Raise e, g')
      | (Ok mel_offsets, g') =>
          let sig_offsets :=
            (fun offset => (offset + voc_pad hp) * hop_length hp) <$> mel_offsets in
          let mels :=
            zip_with (fun o x => slice_cols x.1 (Some o) (Some (o + mel_win)))
              mel_offsets batch in
          let labels :=
            zip_with
              (fun s x => py_slice x.2 (Some s) (Some (s + voc_seq_len hp + 1)))
              sig_offsets batch in
          (Ok {| mel_win := mel_win; max_offsets := max_offsets;
                 mel_offsets := mel_offsets; sig_offsets := sig_offsets;
                 mels := mels; labels := labels |}, g')
      end
  end.

(** [collate_vocoder]: returns [(x, y, mels)]. *)
Definition collate_vocoder (batch : list (array2 F * list Z)) (g : rng)
  : result (list (list F32) * list (list Z) * list (array2 F32)) * rng :=
  match collate_vocoder_crops batch g with
  | (Raise e, g') => (Raise e, g')
  | (Ok c, g') =>
      let out : result (list (list F32) * list (list Z) * list (array2 F32)) :=
        let* mels := np_stack2 (mels c) in
        let mels := array2_map astype_float32 <$> mels in
        let* labels := np_stack1 (labels c) in
        let x :=
          (fun row =>
             (fun code => label_2_float code (bits hp)) <$>
               py_slice row None (Some (voc_seq_len hp))) <$> labels in
        let y := (fun row => py_slice row (Some 1) None) <$> labels in
        Ok (x, y, mels) in
      (out, g')
  end.
End Vocoder.

Arguments mel_win {F} _.
Arguments max_offsets {F} _.
Arguments mel_offsets {F} _.
Arguments sig_offsets {F} _.
Arguments mels {F} _.
Arguments labels {F} _.

(** ** Tacotron/TTS dataset *)

Section TTS.
Context `{Dtype}.
Variable hp : HParams.
(** [text_to_sequence(text, cleaner_names)] of [utils.text]. *)
Variable text_to_sequence : string → list string → list Z.

Record TTSDataset : Type := {
  metadata : list string;
  text_dict : gmap string string
}.

(** The filtering loop of [get_tts_dataset]. *)
Fixpoint tts_index (dataset : list (string * Z))
    (dataset_ids : list string) (mel_lengths : list Z)
  : list string * list Z :=
  match dataset with
  | [] => (dataset_ids, mel_lengths)
  | (id, n) :: rest =>
      if n <=? tts_max_input_len hp
      then tts_index rest (dataset_ids ++ [id]) (mel_lengths ++ [n])
      else tts_index rest dataset_ids mel_lengths
  end.

(** The test of the loop, for the statements about the index. *)
Definition kept (r : string * Z) : Prop := r.2 ≤ tts_max_input_len hp.

#[global] Instance kept_dec r : Decision (kept r).
Proof. unfold kept. apply _. Defined.

Definition get_tts_dataset (st : storage scalar) (batch_size : Z)
  : result (DataLoader TTSDataset) :=
  let* dataset := load (dataset_pkl st) in
  let '(dataset_ids, mel_lengths) := tts_index dataset [] [] in
  let* text_dict := load (text_dict_pkl st) in
  let train_dataset :=
    {| metadata := dataset_ids; text_dict := text_dict |} in
  let* sampler :=
    (if tts_bin_lengths hp
     then let* s := BinnedLengthSampler_init mel_lengths batch_size (Some 512) in
          Ok (Some s)
     else Ok None) in
  Ok {| dl_dataset := train_dataset; dl_collate_fn := collate_tts_fn;
        dl_batch_size := batch_size; dl_sampler := sampler;
        dl_num_workers := 1; dl_shuffle := false; dl_pin_memory := true |}.

Definition TTSDataset_getitem
    (st : storage scalar) (self : TTSDataset) (index : Z)
  : result (list Z * array2 scalar) :=
  let* id := py_index (metadata self) index in
  let* text := dict_get (text_dict self) id in
  let x := text_to_sequence text (tts_cleaner_names hp) in
  let* mel := load (mel_dir st !! id) in
  Ok (x, mel).

Definition TTSDataset_len (self : TTSDataset) : Z := len (metadata self).

(** [np.pad(x, (0, after), mode='constant')]: a negative width raises. *)
Definition pad1d (x : list Z) (max_len : Z) : result (list Z) :=
  let after := max_len - len x in
  if after <? 0 then Raise ValueError
  else Ok (x ++ replicate (Z.to_nat after) 0).

Definition pad2d (x : array2 scalar) (max_len : Z) : result (array2 scalar) :=
  let after := max_len - Z.of_nat (n_cols x) in
  if after <? 0 then Raise ValueError
  else Ok (Array2 (n_rows x) (n_cols x + Z.to_nat after)
             (fun c t => if (t <? n_cols x)%nat then cell x c t else of_int 0)).

(** [mel * 8. - 4.] on one entry. *)
Definition rescale (v : scalar) : scalar := fsub (fmul v (of_int 8)) (of_int 4).

(** [collate_tts]: returns [(chars, mel)]. *)
Definition collate_tts (batch : list (list Z * array2 scalar))
  : result (list (list Z) * list (array2 scalar)) :=
  let r := tts_r hp in
  let x_lens := (fun x => len x.1) <$> batch in
  let* max_x_len := py_max x_lens in
  let* chars := mapM (fun x => pad1d x.1 max_x_len) batch in
  let* chars := np_stack1 chars in
  let spec_lens := (fun x => Z.of_nat (n_cols x.2)) <$> batch in
  let* m := py_max spec_lens in
  let max_spec_len := m + 1 in
  let* rem := py_mod max_spec_len r in
  let max_spec_len :=
    if negb (rem =? 0) then max_spec_len + (r - rem) else max_spec_len in
  let* mel := mapM (fun x => pad2d x.2 max_spec_len) batch in
  let* mel := np_stack2 mel in
  let mel := array2_map rescale <$> mel in
  Ok (chars, mel).
End TTS.


(** ** Concrete inputs for the examples

    The configuration and the vocoder example are those of the scenarios of
    the specification: [voc_seq_len = 2000], [hop_length = 200],
    [voc_pad = 2], a mel of 40 frames; token lengths 5 and 8 with mels of 20
    and 17 frames and [tts_r = 5]. *)

Definition hp_example : HParams := {|
  voc_seq_len := 2000;
  hop_length := 200;
  voc_pad := 2;
  voc_test_samples := 2;
  bits := 9;
  tts_max_input_len := 3;
  tts_r := 5;
  tts_bin_lengths := true;
  tts_cleaner_names := ["english_cleaners"%string]
|}.

Definition hp_no_test : HParams := {|
  voc_seq_len := 2000;
  hop_length := 200;
  voc_pad := 2;
  voc_test_samples := 0;
  bits := 9;
  tts_max_input_len := 3;
  tts_r := 5;
  tts_bin_lengths := true;
  tts_cleaner_names := ["english_cleaners"%string]
|}.

Definition corpus_example : list (string * Z) :=
  [("a"%string, 2); ("b"%string, 7); ("c"%string, 3); ("d"%string, 1);
   ("e"%string, 9)].

(** A corpus whose text map lacks the kept ids ["c"] and ["d"]. *)
Definition storage_example : storage spec_float := {|
  dataset_pkl := Some corpus_example;
  text_dict_pkl := Some {[ "a"%string := "hello"%string ]};
  mel_dir := ∅;
  quant_dir := ∅
|}.

Definition seed_example (a : Z) : rng := [Z.to_nat a + 2; 6; 4; 5; 1]%nat.

Definition mel_example (frames : nat) : array2 spec_float :=
  Array2 80 frames (fun _ _ => ieee_of_int 24 128 1).

Definition vocoder_batch_example : list (array2 spec_float * list Z) :=
  [(mel_example 40, replicate (Z.to_nat 8000) 0);
   (mel_example 19, replicate (Z.to_nat 3800) 1)].

Definition vocoder_short_example : list (array2 spec_float * list Z) :=
  [(mel_example 40, replicate (Z.to_nat 8000) 0);
   (mel_example 18, replicate (Z.to_nat 3600) 1)].

(** Stands in for [label_2_float], which [utils/dataset.py] imports: the
    code as a binary32 number. *)
Definition code_as_float (code bits : Z) : spec_float := ieee_of_int 24 128 code.

Definition tts_batch_example : list (list Z * array2 spec_float) :=
  [(replicate 5 7, mel_example 20); (replicate 8 9, mel_example 17)].

(** A small vocoder configuration, [mel_win = 4], with two examples of 8
    and 9 frames. *)
Definition hp_small : HParams := {|
  voc_seq_len := 4;
  hop_length := 2;
  voc_pad := 1;
  voc_test_samples := 2;
  bits := 9;
  tts_max_input_len := 200;
  tts_r := 0;
  tts_bin_lengths := true;
  tts_cleaner_names := []
|}.

Definition vocoder_batch_small : list (array2 spec_float * list Z) :=
  [(mel_example 8, [10; 11; 12; 13; 14; 15; 16; 17; 18; 19; 20; 21; 22; 23; 24; 25]);
   (mel_example 9, [30; 31; 32; 33; 34; 35; 36; 37; 38; 39; 40; 41; 42; 43; 44; 45; 46; 47])].

(** Two mels that differ in their number of channels. *)
Definition tts_batch_ragged : list (list Z * array2 spec_float) :=
  [([1; 2], mel_example 3);
   ([3], Array2 40 3 (fun _ _ => ieee_of_int 24 128 1))].

(** A corpus of 520 records with two-letter ids, all within
    [tts_max_input_len hp_small], and its storage: one full bin of 512 and
    eight records over. *)
Definition id_of (i : nat) : string :=
  String (Ascii.ascii_of_nat (97 + i / 26))
    (String (Ascii.ascii_of_nat (97 + i mod 26)) EmptyString).

Definition corpus_bins : list (string * Z) :=
  (fun i => (id_of i, Z.of_nat (100 + (i * 37) mod 64))) <$> seq 0 520.

Definition storage_bins : storage spec_float := {|
  dataset_pkl := Some corpus_bins;
  text_dict_pkl := Some ∅;
  mel_dir := ∅;
  quant_dir := ∅
|}.

(** Stored arrays for the ids ["a"] and ["b"], with the quantised waveform
    of ["b"] absent. *)
Definition storage_files : storage spec_float := {|
  dataset_pkl := Some corpus_example;
  text_dict_pkl := Some {[ "a"%string := "hello"%string ]};
  mel_dir := {[ "a"%string := mel_example 4; "b"%string := mel_example 5 ]};
  quant_dir := {[ "a"%string := [1; 2; 3] ]}
|}.

(** * Properties *)

(** ** Slices *)

Lemma len_nonneg {A} (l : list A) : 0 ≤ len l.
Proof. unfold len. lia. Qed.

Lemma len_app {A} (l1 l2 : list A) : len (l1 ++ l2) = len l1 + len l2.
Proof. unfold len. rewrite length_app. lia. Qed.

Lemma py_slice_from_0 {A} (l : list A) : py_slice l (Some 0) None = l.
Proof.
  unfold py_slice, slice_bounds, adjust_index, len. simpl.
  rewrite Nat2Z.id, Z.min_l by lia. simpl.
  rewrite Nat.sub_0_r. apply firstn_all.
Qed.

Lemma py_slice_to_0 {A} (l : list A) : py_slice l None (Some 0) = [].
Proof.
  unfold py_slice, slice_bounds, adjust_index, len. simpl.
  rewrite Z.min_l by lia. reflexivity.
Qed.

(** [l[-k:]] for [0 < k <= len l]: the last [k] elements. *)
Lemma py_slice_last {A} (l : list A) (k : Z) :
  0 < k ≤ len l →
  py_slice l (Some (- k)) None = drop (length l - Z.to_nat k) l.
Proof.
  intros Hk. unfold py_slice, slice_bounds, adjust_index, len in *.
  replace (- k <? 0) with true by (symmetry; apply Z.ltb_lt; lia).
  rewrite Z.max_r by lia. rewrite Nat2Z.id.
  replace (Z.to_nat (- k + Z.of_nat (length l)))
    with (length l - Z.to_nat k)%nat by lia.
  apply take_ge. rewrite length_drop. lia.
Qed.

(** [l[:-k]] for [0 < k <= len l]: all but the last [k] elements. *)
Lemma py_slice_but_last {A} (l : list A) (k : Z) :
  0 < k ≤ len l →
  py_slice l None (Some (- k)) = take (length l - Z.to_nat k) l.
Proof.
  intros Hk. unfold py_slice, slice_bounds, adjust_index, len in *.
  replace (- k <? 0) with true by (symmetry; apply Z.ltb_lt; lia).
  rewrite Z.max_r by lia. simpl. rewrite Nat.sub_0_r.
  f_equal. lia.
Qed.

(** ** [random.shuffle] permutes *)

Lemma swap_length {A} (x : list A) i j : length (swap x i j) = length x.
Proof.
  unfold swap. destruct (x !! i), (x !! j); trivial.
  by rewrite !length_insert.
Qed.

Lemma insert_head_Permutation {A} (x : list A) (j : nat) (a b : A) :
  x !! j = Some b → b :: <[j := a]> x ≡ₚ a :: x.
Proof.
  revert j. induction x as [|c x IH]; intros [|j] Hj; simplify_eq/=.
  - apply perm_swap.
  - rewrite (perm_swap c b), (IH j Hj). apply perm_swap.
Qed.

Lemma swap_Permutation {A} (x : list A) i j : swap x i j ≡ₚ x.
Proof.
  unfold swap.
  destruct (x !! i) as [xi|] eqn:Hi; [|done].
  destruct (x !! j) as [xj|] eqn:Hj; [|done].
  revert i j Hi Hj. induction x as [|c x IH]; intros [|i] [|j] Hi Hj;
    simplify_eq/=; try done.
  - by apply insert_head_Permutation.
  - by apply insert_head_Permutation.
  - f_equiv. by apply IH.
Qed.

Lemma shuffle_from_Permutation {A} i (x : list A) g :
  (shuffle_from i x g).1 ≡ₚ x.
Proof.
  revert x g. induction i as [|i IH]; intros x g; [done|].
  cbn [shuffle_from]. destruct (randbelow (S (S i)) g) as [j g'].
  rewrite IH. apply swap_Permutation.
Qed.

Lemma shuffle_Permutation {A} (x : list A) g : (shuffle x g).1 ≡ₚ x.
Proof. apply shuffle_from_Permutation. Qed.

Lemma shuffle_length {A} (x : list A) g : length (shuffle x g).1 = length x.
Proof. by rewrite shuffle_Permutation. Qed.

(** ** The vocoder split *)

Section VocoderSplit.
Context {F : Type}.
Variable hp : HParams.
Variable seed : Z → rng.

Lemma shuffled_ids_length dataset :
  length (shuffled_ids seed dataset) = length dataset.
Proof. unfold shuffled_ids. by rewrite shuffle_length, length_fmap. Qed.

Lemma vocoder_split_eq dataset :
  vocoder_split hp seed dataset =
    (py_slice (shuffled_ids seed dataset) None (Some (- voc_test_samples hp)),
     py_slice (shuffled_ids seed dataset) (Some (- voc_test_samples hp)) None).
Proof.
  unfold vocoder_split, shuffled_ids.
  by destruct (shuffle (fst <$> dataset) (seed 1234)).
Qed.

(** The two datasets are built from the two lists of the split. *)
Lemma get_vocoder_datasets_ids
    (st : storage F) batch_size dataset train_set test_set :
  dataset_pkl st = Some dataset →
  get_vocoder_datasets hp seed st batch_size = Ok (train_set, test_set) →
  voc_metadata (dl_dataset train_set) = (vocoder_split hp seed dataset).1
  ∧ voc_metadata (dl_dataset test_set) = (vocoder_split hp seed dataset).2.
Proof.
  intros Hst. unfold get_vocoder_datasets. rewrite Hst. cbn [load bind].
  destruct (vocoder_split hp seed dataset) as [train_ids test_ids].
  by intros [= <- <-].
Qed.

(** C5: with unique ids and [0 < voc_test_samples <= N], the test ids are
    the last [voc_test_samples] ids of the seed-1234 shuffle, the train ids
    are the ids before them in shuffled order, and the two share no id;
    these are the ids of the two datasets. *)
Theorem vocoder_split_holds_out_last dataset :
  NoDup (fst <$> dataset) →
  0 < voc_test_samples hp ≤ len dataset →
  let train_ids := (vocoder_split hp seed dataset).1 in
  let test_ids := (vocoder_split hp seed dataset).2 in
  let k := Z.to_nat (voc_test_samples hp) in
  test_ids = drop (length dataset - k) (shuffled_ids seed dataset)
  ∧ train_ids = take (length dataset - k) (shuffled_ids seed dataset)
  ∧ train_ids ++ test_ids = shuffled_ids seed dataset
  ∧ len test_ids = voc_test_samples hp
  ∧ (∀ id, id ∈ train_ids → id ∉ test_ids)
  ∧ (∀ (st : storage F) batch_size train_set test_set,
       dataset_pkl st = Some dataset →
       get_vocoder_datasets hp seed st batch_size = Ok (train_set, test_set) →
       voc_metadata (dl_dataset train_set) = train_ids
       ∧ voc_metadata (dl_dataset test_set) = test_ids).
Proof.
  intros Hnodup Hk. cbn zeta.
  assert (Hlen : len (shuffled_ids seed dataset) = len dataset)
    by (unfold len; by rewrite shuffled_ids_length).
  set (n := (length dataset - Z.to_nat (voc_test_samples hp))%nat).
  assert (Htest : (vocoder_split hp seed dataset).2
                  = drop n (shuffled_ids seed dataset)).
  { rewrite vocoder_split_eq. cbn [snd].
    rewrite py_slice_last by (rewrite Hlen; exact Hk).
    by rewrite shuffled_ids_length. }
  assert (Htrain : (vocoder_split hp seed dataset).1
                   = take n (shuffled_ids seed dataset)).
  { rewrite vocoder_split_eq. cbn [fst].
    rewrite py_slice_but_last by (rewrite Hlen; exact Hk).
    by rewrite shuffled_ids_length. }
  rewrite Htest, Htrain. split_and!.
  - done.
  - done.
  - apply take_drop.
  - unfold len in *. rewrite length_drop, shuffled_ids_length. lia.
  - assert (Hs : NoDup (take n (shuffled_ids seed dataset)
                        ++ drop n (shuffled_ids seed dataset))).
    { rewrite take_drop. unfold shuffled_ids.
      by rewrite shuffle_Permutation. }
    apply NoDup_app in Hs as (_ & Hdisj & _). exact Hdisj.
  - intros st batch_size train_set test_set Hst Hget.
    rewrite <- Htest, <- Htrain. by apply (get_vocoder_datasets_ids st batch_size).
Qed.

(** C10: with [voc_test_samples = 0] the slices are [ids[-0:]] and
    [ids[:-0]]: every shuffled id is a test id and no id is a train id,
    and the datasets are built from these lists. *)
Theorem vocoder_split_zero_holds_out_all dataset :
  voc_test_samples hp = 0 →
  vocoder_split hp seed dataset = ([], shuffled_ids seed dataset)
  ∧ (∀ (st : storage F) batch_size train_set test_set,
       dataset_pkl st = Some dataset →
       get_vocoder_datasets hp seed st batch_size = Ok (train_set, test_set) →
       voc_metadata (dl_dataset train_set) = []
       ∧ voc_metadata (dl_dataset test_set) = shuffled_ids seed dataset).
Proof.
  intros Hk.
  assert (Hsplit : vocoder_split hp seed dataset
                   = ([], shuffled_ids seed dataset)).
  { rewrite vocoder_split_eq, Hk. cbn [Z.opp].
    by rewrite py_slice_to_0, py_slice_from_0. }
  split; [exact Hsplit|]. intros st batch_size train_set test_set Hst Hget.
  destruct (get_vocoder_datasets_ids _ _ _ _ _ Hst Hget) as [-> ->].
  by rewrite Hsplit.
Qed.
End VocoderSplit.

(** ** The TTS index *)

Section TTSIndex.
Context `{Dtype}.
Variable hp : HParams.
Variable text_to_sequence : string → list string → list Z.

Lemma tts_index_acc dataset ids lens :
  tts_index hp dataset ids lens =
    (ids ++ (filter (kept hp) dataset).*1,
     lens ++ (filter (kept hp) dataset).*2).
Proof.
  revert ids lens. induction dataset as [|[id n] rest IH]; intros ids lens.
  - by rewrite !app_nil_r.
  - cbn [tts_index]. rewrite filter_cons.
    destruct (decide (kept hp (id, n))) as [Hk|Hk]; unfold kept in Hk;
      cbn [snd] in Hk.
    + replace (n <=? tts_max_input_len hp) with true
        by (symmetry; apply Z.leb_le; lia).
      rewrite IH. cbn [fmap list_fmap fst snd].
      by rewrite <- !app_assoc.
    + replace (n <=? tts_max_input_len hp) with false
        by (symmetry; apply Z.leb_gt; lia).
      apply IH.
Qed.

Lemma tts_index_filter dataset :
  tts_index hp dataset [] [] =
    ((filter (kept hp) dataset).*1, (filter (kept hp) dataset).*2).
Proof. by rewrite tts_index_acc. Qed.

Lemma get_tts_dataset_Ok (st : storage scalar) batch_size dl dataset :
  dataset_pkl st = Some dataset →
  get_tts_dataset hp st batch_size = Ok dl →
  metadata (dl_dataset dl) = (filter (kept hp) dataset).*1
  ∧ text_dict_pkl st = Some (text_dict (dl_dataset dl))
  ∧ (∀ s, dl_sampler dl = Some s →
          idx s = argsort (filter (kept hp) dataset).*2).
Proof.
  intros Hst. unfold get_tts_dataset. rewrite Hst. cbn [load bind].
  rewrite tts_index_filter.
  destruct (text_dict_pkl st) as [td|]; [|done]. cbn [load bind].
  destruct (tts_bin_lengths hp).
  - unfold BinnedLengthSampler_init.
    destruct (py_mod _ _) as [m|]; [|done]. cbn [bind].
    destruct (m =? 0); [|done]. cbn [bind].
    intros [= <-]. cbn. split_and!; [done..|]. by intros s [= <-].
  - cbn [bind]. intros [= <-]. cbn. by split_and!.
Qed.

(** C9: the ids and lengths the loop keeps are, paired up, exactly the
    records of the corpus with length at most [tts_max_input_len], in
    corpus order; a loader that is built carries these ids, unshuffled. *)
Theorem tts_index_keeps_short_records_in_order dataset :
  let dataset_ids := (tts_index hp dataset [] []).1 in
  let mel_lengths := (tts_index hp dataset [] []).2 in
  zip dataset_ids mel_lengths =
    filter (fun r => r.2 ≤ tts_max_input_len hp) dataset
  ∧ length dataset_ids = length mel_lengths
  ∧ (∀ r, r ∈ zip dataset_ids mel_lengths ↔
          r ∈ dataset ∧ r.2 ≤ tts_max_input_len hp)
  ∧ (∀ (st : storage scalar) batch_size dl,
       dataset_pkl st = Some dataset →
       get_tts_dataset hp st batch_size = Ok dl →
       metadata (dl_dataset dl) = dataset_ids).
Proof.
  cbn zeta. rewrite tts_index_filter. cbn [fst snd].
  assert (Hzip : zip (filter (kept hp) dataset).*1 (filter (kept hp) dataset).*2
                 = filter (kept hp) dataset) by apply zip_fst_snd.
  split_and!.
  - exact Hzip.
  - by rewrite !length_fmap.
  - intros r. rewrite Hzip, list_elem_of_filter. unfold kept.
    split; intros [? ?]; by split.
  - intros st batch_size dl Hst Hget.
    by destruct (get_tts_dataset_Ok st batch_size dl dataset Hst Hget) as [-> _].
Qed.

(** C2, as the code has it: building the loader never looks an id up in
    the text map.  Whenever both pickles load, the batch size is positive
    and the sampler's assertion holds, the loader is built, whatever ids the
    text map has; a kept id without text raises [KeyError] when its record
    is fetched. *)
Theorem get_tts_dataset_defers_text_lookup
    (st : storage scalar) batch_size dataset td :
  dataset_pkl st = Some dataset →
  text_dict_pkl st = Some td →
  0 < batch_size →
  tts_bin_lengths hp = false ∨ 512 `mod` batch_size = 0 →
  ∃ dl,
    get_tts_dataset hp st batch_size = Ok dl
    ∧ metadata (dl_dataset dl) = (tts_index hp dataset [] []).1
    ∧ text_dict (dl_dataset dl) = td
    ∧ (∀ index id,
         py_index (metadata (dl_dataset dl)) index = Ok id →
         td !! id = None →
         TTSDataset_getitem hp text_to_sequence st (dl_dataset dl) index
           = Raise KeyError).
Proof.
  intros Hst Htd Hb Hguard.
  assert (Hex : ∃ dl, get_tts_dataset hp st batch_size = Ok dl).
  { unfold get_tts_dataset. rewrite Hst, Htd. cbn [load bind].
    destruct (tts_index hp dataset [] []) as [ids lens].
    destruct (tts_bin_lengths hp) eqn:Hbin; [|cbn; eauto].
    destruct Hguard as [?|Hmod]; [done|].
    unfold BinnedLengthSampler_init, py_mod. cbn [Z.eqb].
    replace (batch_size =? 0) with false by (symmetry; apply Z.eqb_neq; lia).
    cbn [bind]. rewrite Hmod. cbn. eauto. }
  destruct Hex as [dl Hget]. exists dl.
  destruct (get_tts_dataset_Ok st batch_size dl dataset Hst Hget)
    as (Hmeta & Htd' & _).
  rewrite Htd in Htd'. injection Htd' as Htd'.
  split_and!; [done| by rewrite tts_index_filter | done |].
  intros index id Hidx Hnone. unfold TTSDataset_getitem.
  rewrite Hidx. cbn [bind]. unfold dict_get. rewrite <- Htd', Hnone. done.
Qed.
End TTSIndex.

(** ** The vocoder collator *)

Lemma slice_bounds_in_range n a b :
  0 ≤ a ≤ b → b ≤ n →
  slice_bounds n (Some a) (Some b) = (Z.to_nat a, Z.to_nat b).
Proof.
  intros Hab Hb. unfold slice_bounds, adjust_index.
  replace (a <? 0) with false by (symmetry; apply Z.ltb_ge; lia).
  replace (b <? 0) with false by (symmetry; apply Z.ltb_ge; lia).
  by rewrite !Z.min_l by lia.
Qed.

Lemma py_slice_in_range {A} (l : list A) a b :
  0 ≤ a ≤ b → b ≤ len l →
  py_slice l (Some a) (Some b) = take (Z.to_nat (b - a)) (drop (Z.to_nat a) l).
Proof.
  intros Hab Hb. unfold py_slice. rewrite slice_bounds_in_range by done.
  f_equal. lia.
Qed.

Lemma py_slice_prefix {A} (l : list A) b :
  0 ≤ b ≤ len l → py_slice l None (Some b) = take (Z.to_nat b) l.
Proof.
  intros Hb. unfold py_slice, slice_bounds, adjust_index.
  replace (b <? 0) with false by (symmetry; apply Z.ltb_ge; lia).
  rewrite Z.min_l by lia. simpl. by rewrite Nat.sub_0_r.
Qed.

Lemma py_slice_suffix {A} (l : list A) a :
  0 ≤ a ≤ len l → py_slice l (Some a) None = drop (Z.to_nat a) l.
Proof.
  intros Ha. unfold py_slice, slice_bounds, adjust_index.
  replace (a <? 0) with false by (symmetry; apply Z.ltb_ge; lia).
  rewrite Z.min_l by lia. apply take_ge.
  rewrite length_drop. unfold len. lia.
Qed.

Lemma randbelow_lt n g : (0 < n)%nat → ((randbelow n g).1 < n)%nat.
Proof.
  intros Hn. unfold randbelow. destruct (next_raw g) as [r g']. cbn [fst].
  apply Nat.mod_upper_bound. lia.
Qed.

Lemma randint_in_range low high g :
  low < high →
  ∃ o g', randint low high g = (Ok o, g') ∧ low ≤ o < high.
Proof.
  intros Hlt. unfold randint.
  replace (high <=? low) with false by (symmetry; apply Z.leb_gt; lia).
  pose proof (randbelow_lt (Z.to_nat (high - low)) g) as Hr.
  destruct (randbelow _ g) as [r g']. cbn [fst] in Hr.
  exists (low + Z.of_nat r), g'. split; [done|]. lia.
Qed.

Lemma randint_empty_range low high g :
  high ≤ low → randint low high g = (Raise ValueError, g).
Proof.
  intros Hle. unfold randint.
  by replace (high <=? low) with true by (symmetry; apply Z.leb_le; lia).
Qed.

Lemma draw_offsets_in_range ms g :
  Forall (fun m => 0 < m) ms →
  ∃ os g', draw_offsets ms g = (Ok os, g')
           ∧ Forall2 (fun o m => 0 ≤ o < m) os ms.
Proof.
  intros Hms. revert g. induction Hms as [|m ms Hm _ IH]; intros g.
  - exists [], g. by split.
  - destruct (randint_in_range 0 m g Hm) as (o & g1 & Ho & Hrange).
    destruct (IH g1) as (os & g2 & Hos & Hall).
    exists (o :: os), g2. cbn [draw_offsets]. rewrite Ho, Hos.
    split; [done|]. by constructor.
Qed.

Lemma draw_offsets_raises ms g :
  Exists (fun m => m ≤ 0) ms →
  ∃ g', draw_offsets ms g = (Raise ValueError, g').
Proof.
  intros Hms. revert g. induction ms as [|m ms IH]; intros g.
  - by apply Exists_nil in Hms.
  - cbn [draw_offsets]. destruct (decide (m ≤ 0)) as [Hm|Hm].
    + rewrite randint_empty_range by done. eauto.
    + destruct (randint_in_range 0 m g) as (o & g1 & -> & _); [lia|].
      apply Exists_cons in Hms as [?|Hms]; [done|].
      destruct (IH Hms g1) as [g2 ->]. eauto.
Qed.

Lemma np_stack2_Ok {A} (xs : list (array2 A)) :
  xs ≠ [] →
  (∀ x y, x ∈ xs → y ∈ xs → n_rows x = n_rows y ∧ n_cols x = n_cols y) →
  np_stack2 xs = Ok xs.
Proof.
  intros Hne Hshape. destruct xs as [|x xs']; [done|]. cbn [np_stack2].
  replace (forallb (same_shape x) xs') with true; [done|].
  symmetry. apply forallb_forall. intros y Hy%list_elem_of_In.
  destruct (Hshape x y) as [Hr Hc]; [left | by right |].
  unfold same_shape. rewrite Hr, Hc, !Nat.eqb_refl. done.
Qed.

Lemma np_stack1_Ok {A} (xs : list (list A)) :
  xs ≠ [] →
  (∀ x y, x ∈ xs → y ∈ xs → length x = length y) →
  np_stack1 xs = Ok xs.
Proof.
  intros Hne Hshape. destruct xs as [|x xs']; [done|]. cbn [np_stack1].
  replace (forallb (fun y => (length y =? length x)%nat) xs') with true; [done|].
  symmetry. apply forallb_forall. intros y Hy%list_elem_of_In.
  apply Nat.eqb_eq. apply Hshape; [by right | left].
Qed.

Section CollateVocoder.
Context {F F32 : Type}.
Variable hp : HParams.
Variable astype_float32 : F → F32.
Variable label_2_float : Z → Z → F32.

Let window : Z := voc_seq_len hp / hop_length hp + 2 * voc_pad hp.

(** C8: a batch with an example of at most [mel_win + 2 * voc_pad] frames
    makes [collate_vocoder] raise, and nothing is returned; unless
    [hop_length] is zero, the exception is the [ValueError] of the offset
    draw. *)
Theorem collate_vocoder_short_example_raises
    (batch : list (array2 F * list Z)) (g : rng) :
  Exists (fun x => Z.of_nat (n_cols x.1) ≤ window + 2 * voc_pad hp) batch →
  (∃ e, (collate_vocoder hp astype_float32 label_2_float batch g).1 = Raise e)
  ∧ (hop_length hp ≠ 0 →
     (collate_vocoder hp astype_float32 label_2_float batch g).1
       = Raise ValueError).
Proof.
  intros Hshort. unfold collate_vocoder, collate_vocoder_crops, py_floordiv.
  destruct (hop_length hp =? 0) eqn:Hhop.
  { split; [by eexists|]. intros Hne. by apply Z.eqb_eq in Hhop. }
  match goal with |- context [draw_offsets ?ms g] =>
    destruct (draw_offsets_raises ms g) as [g' ->] end.
  { apply Exists_fmap. eapply Exists_impl; [exact Hshort|].
    intros x Hx. unfold window in Hx. cbn. lia. }
  split; [by eexists | done].
Qed.

Lemma crops_shapes (os : list Z) (batch : list (array2 F * list Z)) :
  0 < hop_length hp → 0 ≤ voc_pad hp → 0 ≤ voc_seq_len hp →
  Forall2 (fun o x => 0 ≤ o < Z.of_nat (n_cols x.1) - (window + 2 * voc_pad hp))
    os batch →
  Forall (fun x => len x.2 = Z.of_nat (n_cols x.1) * hop_length hp) batch →
  Forall2 (fun m x => n_rows m = n_rows x.1 ∧ Z.of_nat (n_cols m) = window)
    (zip_with (fun o x => slice_cols x.1 (Some o) (Some (o + window))) os batch)
    batch
  ∧ Forall2 (fun w x => len w = voc_seq_len hp + 1)
      (zip_with
         (fun s x => py_slice x.2 (Some s) (Some (s + voc_seq_len hp + 1)))
         ((fun o => (o + voc_pad hp) * hop_length hp) <$> os) batch)
      batch.
Proof.
  intros Hhop Hpad Hseq Hos Hlen.
  assert (Hq : 0 ≤ voc_seq_len hp / hop_length hp) by (apply Z.div_pos; lia).
  pose proof (Z.mul_div_le (voc_seq_len hp) (hop_length hp) Hhop) as Hq1.
  pose proof (Z.mul_succ_div_gt (voc_seq_len hp) (hop_length hp) Hhop) as Hq2.
  induction Hos as [|o x os batch Ho Hos IH]; [by split|].
  apply Forall_cons in Hlen as [Hx Hlen].
  destruct (IH Hlen) as [IHm IHw]. cbn [zip_with fmap list_fmap].
  split; constructor; try done.
  - unfold slice_cols. rewrite slice_bounds_in_range by (subst window; lia).
    cbn. split; [done|]. subst window. lia.
  - rewrite py_slice_in_range.
    + unfold len. rewrite length_take, length_drop. unfold len in Hx.
      subst window. nia.
    + nia.
    + rewrite Hx. subst window. nia.
Qed.

(** C4: under a configuration with [hop_length > 0], [voc_pad >= 0] and
    [voc_seq_len >= 0], if every mel of the batch has more than
    [mel_win + 2 * voc_pad] frames and every waveform has
    [T_m * hop_length] samples, then every drawn mel offset is in
    [0, T_m - (mel_win + 2 * voc_pad)), every waveform offset is
    [(mel_offset + voc_pad) * hop_length], every mel crop has [mel_win]
    frames and every waveform crop [voc_seq_len + 1] samples; the input
    [x] is computed from the first [voc_seq_len] samples of each crop and
    the target [y] is its last [voc_seq_len] samples. *)
Theorem collate_vocoder_crops_aligned
    (batch : list (array2 F * list Z)) (g : rng) :
  0 < hop_length hp → 0 ≤ voc_pad hp → 0 ≤ voc_seq_len hp →
  Forall (fun x => window + 2 * voc_pad hp < Z.of_nat (n_cols x.1)
                   ∧ len x.2 = Z.of_nat (n_cols x.1) * hop_length hp) batch →
  ∃ c g',
    collate_vocoder_crops hp batch g = (Ok c, g')
    ∧ mel_win c = window
    ∧ Forall2
        (fun o x => 0 ≤ o < Z.of_nat (n_cols x.1) - (window + 2 * voc_pad hp))
        (mel_offsets c) batch
    ∧ Forall2 (fun s o => s = (o + voc_pad hp) * hop_length hp)
        (sig_offsets c) (mel_offsets c)
    ∧ Forall2 (fun m x => n_rows m = n_rows x.1 ∧ Z.of_nat (n_cols m) = window)
        (mels c) batch
    ∧ Forall2 (fun w x => len w = voc_seq_len hp + 1) (labels c) batch
    ∧ (batch ≠ [] →
       (∀ x y, x ∈ batch → y ∈ batch → n_rows x.1 = n_rows y.1) →
       ∃ xs ys ms,
         collate_vocoder hp astype_float32 label_2_float batch g
           = (Ok (xs, ys, ms), g')
         ∧ xs = (fun w => (fun code => label_2_float code (bits hp)) <$>
                            take (Z.to_nat (voc_seq_len hp)) w) <$> labels c
         ∧ ys = drop 1 <$> labels c
         ∧ ms = array2_map astype_float32 <$> mels c
         ∧ Forall (fun x => len x = voc_seq_len hp) xs
         ∧ Forall (fun y => len y = voc_seq_len hp) ys
         ∧ Forall (fun m => Z.of_nat (n_cols m) = window) ms).
Proof.
  intros Hhop Hpad Hseq Hbatch.
  apply Forall_and in Hbatch as [Hlong Haligned].
  unfold collate_vocoder, collate_vocoder_crops, py_floordiv.
  replace (hop_length hp =? 0) with false by (symmetry; apply Z.eqb_neq; lia).
  fold window.
  match goal with |- context [draw_offsets ?ms g] =>
    destruct (draw_offsets_in_range ms g) as (os & g' & -> & Hos) end.
  { apply Forall_fmap. eapply Forall_impl; [exact Hlong|].
    intros x Hx. cbn beta in Hx. cbn. lia. }
  apply Forall2_fmap_r in Hos.
  destruct (crops_shapes os batch Hhop Hpad Hseq Hos Haligned) as [Hm Hw].
  eexists _, g'. split; [reflexivity|]. cbn [mel_win mel_offsets sig_offsets mels labels].
  split; [done|]. split; [exact Hos|].
  split; [by apply Forall2_fmap_l, Forall_Forall2_diag, Forall_true|].
  split; [exact Hm|]. split; [exact Hw|].
  intros Hne Hrows.
  set (ms := zip_with _ os batch) in *.
  set (ws := zip_with _ (_ <$> os) batch) in *.
  assert (Hms : Forall (fun m => ∃ x, x ∈ batch ∧ n_rows m = n_rows x.1
                                  ∧ Z.of_nat (n_cols m) = window) ms).
  { eapply Forall2_Forall_l; [exact Hm|]. apply Forall_forall.
    intros x Hx m [? ?]. eauto. }
  assert (Hws : Forall (fun w => len w = voc_seq_len hp + 1) ws).
  { eapply Forall2_Forall_l; [exact Hw|]. by apply Forall_true. }
  rewrite np_stack2_Ok; cycle 1.
  { intros ->. apply Forall2_nil_inv_l in Hm. done. }
  { intros m1 m2 H1 H2. rewrite Forall_forall in Hms.
    destruct (Hms m1 H1) as (x1 & Hx1 & -> & Hc1).
    destruct (Hms m2 H2) as (x2 & Hx2 & -> & Hc2).
    split; [by apply Hrows | lia]. }
  cbn [bind]. rewrite np_stack1_Ok; cycle 1.
  { intros ->. apply Forall2_nil_inv_l in Hw. done. }
  { intros w1 w2 H1 H2. rewrite Forall_forall in Hws.
    pose proof (Hws w1 H1). pose proof (Hws w2 H2). unfold len in *. lia. }
  cbn [bind]. eexists _, _, _. split; [reflexivity|].
  assert (Hx : (fun row => (fun code => label_2_float code (bits hp)) <$>
                   py_slice row None (Some (voc_seq_len hp))) <$> ws
               = (fun w => (fun code => label_2_float code (bits hp)) <$>
                   take (Z.to_nat (voc_seq_len hp)) w) <$> ws).
  { apply Forall_fmap_ext. eapply Forall_impl; [exact Hws|].
    intros w Hlen. cbn beta in Hlen |- *. rewrite py_slice_prefix by lia. done. }
  assert (Hy : (fun row => py_slice row (Some 1) None) <$> ws = drop 1 <$> ws).
  { apply Forall_fmap_ext. eapply Forall_impl; [exact Hws|].
    intros w Hlen. cbn beta in Hlen |- *. rewrite py_slice_suffix by lia. done. }
  rewrite Hx, Hy. split_and!; try done.
  - apply Forall_fmap. eapply Forall_impl; [exact Hws|].
    intros w Hlen. cbn beta in Hlen. cbn. unfold len in *.
    rewrite length_fmap, length_take. lia.
  - apply Forall_fmap. eapply Forall_impl; [exact Hws|].
    intros w Hlen. cbn beta in Hlen. cbn. unfold len in *. rewrite length_drop. lia.
  - apply Forall_fmap. eapply Forall_impl; [exact Hms|].
    intros m (x & _ & _ & Hc). done.
Qed.
End CollateVocoder.

(** ** The TTS collator *)

Lemma foldl_max_spec (xs : list Z) (a : Z) :
  a ≤ foldl Z.max a xs
  ∧ Forall (fun x => x ≤ foldl Z.max a xs) xs
  ∧ (foldl Z.max a xs = a ∨ foldl Z.max a xs ∈ xs).
Proof.
  revert a. induction xs as [|x xs IH]; intros a; cbn [foldl].
  - split_and!; [lia | constructor | by left].
  - destruct (IH (Z.max a x)) as (Hle & Hall & Hin). split_and!.
    + lia.
    + constructor; [lia | done].
    + destruct Hin as [Heq|Hin]; [|right; by right].
      destruct (Z.max_spec a x) as [[_ Hm]|[_ Hm]]; rewrite Hm in Heq |- *.
      * right. rewrite Heq. left.
      * by left.
Qed.

Lemma py_max_is_max (xs : list Z) :
  xs ≠ [] → ∃ m, py_max xs = Ok m ∧ is_max m xs.
Proof.
  destruct xs as [|x xs]; [done|]. intros _.
  exists (foldl Z.max x xs). split; [reflexivity|].
  destruct (foldl_max_spec xs x) as (Hle & Hall & Hin). split.
  - destruct Hin as [Heq|Hin]; [rewrite Heq; left | by right].
  - by constructor.
Qed.

Lemma mapM_Ok {A B} (f : A → result B) (h : A → B) (l : list A) :
  Forall (fun a => f a = Ok (h a)) l → mapM f l = Ok (h <$> l).
Proof.
  induction 1 as [|a l Ha _ IH]; [done|].
  cbn [mapM]. rewrite Ha. cbn [bind]. rewrite IH. done.
Qed.

Section CollateTTS.
Context `{Dtype}.
Variable hp : HParams.

(** [max_spec_len] after rounding up. *)
Let round_up (m : Z) : Z :=
  if negb (m `mod` tts_r hp =? 0) then m + (tts_r hp - m `mod` tts_r hp)
  else m.

Lemma round_up_least (m : Z) :
  0 < tts_r hp →
  round_up m `mod` tts_r hp = 0
  ∧ m ≤ round_up m
  ∧ (∀ w, w `mod` tts_r hp = 0 → m ≤ w → round_up m ≤ w).
Proof.
  intros Hr. unfold round_up.
  pose proof (Z.mod_pos_bound m (tts_r hp) Hr) as Hbound.
  pose proof (Z.div_mod m (tts_r hp) ltac:(lia)) as Hdm.
  destruct (m `mod` tts_r hp =? 0) eqn:Hrem; cbn [negb].
  - apply Z.eqb_eq in Hrem. split_and!; [done | lia | intros; lia].
  - apply Z.eqb_neq in Hrem. split_and!.
    + replace (m + (tts_r hp - m `mod` tts_r hp))
        with ((m `div` tts_r hp + 1) * tts_r hp) by lia.
      apply Z.mod_mul. lia.
    + lia.
    + intros w Hw Hle.
      pose proof (Z.div_mod w (tts_r hp) ltac:(lia)) as Hw'.
      rewrite Hw in Hw'.
      assert (Hq : m `div` tts_r hp < w `div` tts_r hp)
        by (apply (Z.mul_lt_mono_pos_l (tts_r hp)); lia).
      nia.
Qed.

Lemma pad1d_Ok (x : list Z) (max_len : Z) :
  len x ≤ max_len →
  pad1d x max_len = Ok (x ++ replicate (Z.to_nat (max_len - len x)) 0).
Proof.
  intros Hle. unfold pad1d.
  by replace (max_len - len x <? 0) with false
    by (symmetry; apply Z.ltb_ge; lia).
Qed.

(** What [pad2d] returns when it returns. *)
Let padded (x : array2 scalar) (max_len : Z) : array2 scalar :=
  Array2 (n_rows x) (n_cols x + Z.to_nat (max_len - Z.of_nat (n_cols x)))
    (fun c t => if (t <? n_cols x)%nat then cell x c t else of_int 0).

Lemma pad2d_Ok (x : array2 scalar) (max_len : Z) :
  Z.of_nat (n_cols x) ≤ max_len → pad2d x max_len = Ok (padded x max_len).
Proof.
  intros Hle. unfold pad2d.
  by replace (max_len - Z.of_nat (n_cols x) <? 0) with false
    by (symmetry; apply Z.ltb_ge; lia).
Qed.

Lemma collate_tts_Ok (batch : list (list Z * array2 scalar)) :
  batch ≠ [] →
  0 < tts_r hp →
  (∀ x y, x ∈ batch → y ∈ batch → n_rows x.2 = n_rows y.2) →
  ∃ max_x max_m,
    is_max max_x ((fun x => len x.1) <$> batch)
    ∧ is_max max_m ((fun x => Z.of_nat (n_cols x.2)) <$> batch)
    ∧ collate_tts hp batch =
        Ok ((fun x => x.1 ++ replicate (Z.to_nat (max_x - len x.1)) 0) <$> batch,
            (fun x => array2_map rescale (padded x.2 (round_up (max_m + 1))))
              <$> batch).
Proof.
  intros Hne Hr Hrows. unfold collate_tts.
  destruct (py_max_is_max ((fun x => len x.1) <$> batch))
    as (max_x & -> & Hmax_x); [by destruct batch|].
  destruct (py_max_is_max ((fun x => Z.of_nat (n_cols x.2)) <$> batch))
    as (max_m & -> & Hmax_m); [by destruct batch|].
  exists max_x, max_m. split; [done|]. split; [done|]. cbn [bind].
  destruct Hmax_x as [_ Hle_x]. destruct Hmax_m as [_ Hle_m].
  rewrite Forall_fmap in Hle_x. rewrite Forall_fmap in Hle_m.
  rewrite (mapM_Ok _
    (fun x => x.1 ++ replicate (Z.to_nat (max_x - len x.1)) 0)); cycle 1.
  { eapply Forall_impl; [exact Hle_x|]. intros x Hx. cbn in Hx |- *.
    by apply pad1d_Ok. }
  cbn [bind]. rewrite np_stack1_Ok; cycle 1.
  { by destruct batch. }
  { intros r1 r2 (x1 & -> & Hx1)%list_elem_of_fmap
      (x2 & -> & Hx2)%list_elem_of_fmap.
    rewrite Forall_forall in Hle_x.
    pose proof (Hle_x x1 Hx1) as H1. pose proof (Hle_x x2 Hx2) as H2.
    cbn in H1, H2. unfold len in *.
    rewrite !length_app, !length_replicate. lia. }
  cbn [bind]. unfold py_mod.
  replace (tts_r hp =? 0) with false by (symmetry; apply Z.eqb_neq; lia).
  cbn [bind]. fold (round_up (max_m + 1)).
  destruct (round_up_least (max_m + 1) Hr) as (_ & Hup & _).
  rewrite (mapM_Ok _ (fun x => padded x.2 (round_up (max_m + 1)))); cycle 1.
  { eapply Forall_impl; [exact Hle_m|]. intros x Hx. cbn in Hx |- *.
    apply pad2d_Ok. lia. }
  cbn [bind]. rewrite np_stack2_Ok; cycle 1.
  { by destruct batch. }
  { intros m1 m2 (x1 & -> & Hx1)%list_elem_of_fmap
      (x2 & -> & Hx2)%list_elem_of_fmap.
    rewrite Forall_forall in Hle_m.
    pose proof (Hle_m x1 Hx1) as H1. pose proof (Hle_m x2 Hx2) as H2.
    cbn in H1, H2. cbn. split; [by apply Hrows | lia]. }
  cbn [bind]. by rewrite <- list_fmap_compose.
Qed.

(** C6: for a non-empty batch (with [tts_r > 0] and mels of one channel
    count), every row of the stacked tokens has the greatest token length
    of the batch and is the example's tokens followed by zeros; every
    stacked mel has the same width, the least multiple of [tts_r] that is
    at least the greatest mel length plus one. *)
Theorem collate_tts_output_widths (batch : list (list Z * array2 scalar)) :
  batch ≠ [] →
  0 < tts_r hp →
  (∀ x y, x ∈ batch → y ∈ batch → n_rows x.2 = n_rows y.2) →
  ∃ chars mel max_x max_m width,
    collate_tts hp batch = Ok (chars, mel)
    ∧ is_max max_x ((fun x => len x.1) <$> batch)
    ∧ is_max max_m ((fun x => Z.of_nat (n_cols x.2)) <$> batch)
    ∧ Forall2
        (fun row x =>
           len row = max_x
           ∧ row = x.1 ++ replicate (Z.to_nat (max_x - len x.1)) 0)
        chars batch
    ∧ Forall2 (fun m x => Z.of_nat (n_cols m) = width) mel batch
    ∧ width `mod` tts_r hp = 0
    ∧ max_m + 1 ≤ width
    ∧ (∀ w, w `mod` tts_r hp = 0 → max_m + 1 ≤ w → width ≤ w).
Proof.
  intros Hne Hr Hrows.
  destruct (collate_tts_Ok batch Hne Hr Hrows)
    as (max_x & max_m & Hmax_x & Hmax_m & Heq).
  destruct (round_up_least (max_m + 1) Hr) as (Hmod & Hup & Hleast).
  eexists _, _, max_x, max_m, (round_up (max_m + 1)).
  split; [exact Heq|]. split_and!; try done.
  - apply Forall2_fmap_l, Forall_Forall2_diag.
    destruct Hmax_x as [_ Hle]. rewrite Forall_fmap in Hle.
    eapply Forall_impl; [exact Hle|]. intros x Hx. cbn in Hx |- *.
    split; [|done]. unfold len in *.
    rewrite length_app, length_replicate. lia.
  - apply Forall2_fmap_l, Forall_Forall2_diag.
    destruct Hmax_m as [_ Hle]. rewrite Forall_fmap in Hle.
    eapply Forall_impl; [exact Hle|]. intros x Hx. cbn in Hx |- *. lia.
Qed.

(** C7: the rescale is applied to the whole stacked array after padding:
    every entry of an output mel within the example's own frames is the
    stored value times 8 minus 4, and every entry at a frame at or beyond
    the example's own length is -4; each output mel has at least one such
    frame. *)
Theorem collate_tts_padding_is_minus_four
    (batch : list (list Z * array2 scalar)) :
  batch ≠ [] →
  0 < tts_r hp →
  (∀ x y, x ∈ batch → y ∈ batch → n_rows x.2 = n_rows y.2) →
  ∃ chars mel,
    collate_tts hp batch = Ok (chars, mel)
    ∧ Forall2
        (fun m x =>
           n_rows m = n_rows x.2
           ∧ (n_cols x.2 < n_cols m)%nat
           ∧ ∀ c t, (c < n_rows m)%nat → (t < n_cols m)%nat →
               cell m c t =
                 if (t <? n_cols x.2)%nat
                 then fsub (fmul (cell x.2 c t) (of_int 8)) (of_int 4)
                 else of_int (-4))
        mel batch.
Proof.
  intros Hne Hr Hrows.
  destruct (collate_tts_Ok batch Hne Hr Hrows)
    as (max_x & max_m & Hmax_x & Hmax_m & Heq).
  destruct (round_up_least (max_m + 1) Hr) as (_ & Hup & _).
  eexists _, _. split; [exact Heq|].
  apply Forall2_fmap_l, Forall_Forall2_diag.
  destruct Hmax_m as [_ Hle]. rewrite Forall_fmap in Hle.
  eapply Forall_impl; [exact Hle|]. intros x Hx. cbn in Hx |- *.
  split; [done|]. split; [lia|]. intros c t _ _.
  match goal with |- context [if ?b then _ else _] => destruct b end;
    [reflexivity | apply rescale_zero].
Qed.
End CollateTTS.

(** ** The length-binned sampler *)

Lemma argsort_Permutation lengths :
  argsort lengths ≡ₚ seq 0 (length lengths).
Proof. apply merge_sort_Permutation. Qed.

#[local] Instance length_le_total lengths : Total (length_le lengths).
Proof. intros i j. unfold length_le. lia. Qed.

Lemma argsort_Sorted lengths : Sorted (length_le lengths) (argsort lengths).
Proof. apply (Sorted_merge_sort _). Qed.

Lemma concat_Permutation_blocks {A} (l k : list (list A)) :
  Forall2 (≡ₚ) l k → concat l ≡ₚ concat k.
Proof. induction 1 as [|x y l k Hxy _ IH]; [done|]. cbn. by rewrite Hxy, IH. Qed.

Lemma concat_Permutation_order {A} (l k : list (list A)) :
  l ≡ₚ k → concat l ≡ₚ concat k.
Proof.
  induction 1 as [|x l k _ IH|x y l|l1 l2 l3 _ IH1 _ IH2]; cbn.
  - done.
  - by rewrite IH.
  - rewrite !app_assoc. f_equiv. apply Permutation_app_comm.
  - by rewrite IH1.
Qed.

Lemma chunk_lookup {A} (b k : nat) (l : list A) (p : nat) :
  chunk b k l !! p = if decide (p < b)%nat then l !! (k * b + p)%nat else None.
Proof. unfold chunk. by rewrite lookup_take, lookup_drop. Qed.

Lemma chunk_length {A} (b k : nat) (l : list A) :
  (k * b + b ≤ length l)%nat → length (chunk b k l) = b.
Proof. intros Hle. unfold chunk. rewrite length_take, length_drop. lia. Qed.

Lemma concat_chunks {A} (b n : nat) (l : list A) :
  concat ((fun k => chunk b k l) <$> seq 0 n) = take (n * b) l.
Proof.
  induction n as [|n IH]; [done|].
  rewrite seq_S, fmap_app, concat_app, IH. cbn [fmap list_fmap concat].
  rewrite app_nil_r. unfold chunk. rewrite take_take_drop. f_equal. lia.
Qed.

Lemma view_read_bin {A} (b k : nat) (l : list A) :
  view_read l (bin_view b k) = chunk b k l.
Proof.
  unfold view_read, view_len, bin_view, chunk. cbn. f_equal. lia.
Qed.

Lemma view_write_lookup {A} (st x : list A) (lo n q : nat) :
  (lo + n ≤ length st)%nat → length x = n →
  view_write st (View lo (lo + n)) x !! q =
    if decide (q < lo)%nat then st !! q
    else if decide (q < lo + n)%nat then x !! (q - lo)%nat
    else st !! q.
Proof.
  intros Hle Hx. unfold view_write, view_len. cbn.
  replace (lo + n - lo)%nat with n by lia.
  destruct (decide (q < lo)%nat) as [Hq|Hq].
  { rewrite lookup_app_l by (rewrite length_take; lia).
    by rewrite lookup_take_lt. }
  rewrite lookup_app_r by (rewrite length_take; lia).
  rewrite length_take, Nat.min_l by lia.
  destruct (decide (q < lo + n)%nat) as [Hq'|Hq'].
  { by rewrite lookup_app_l by lia. }
  rewrite lookup_app_r by lia. rewrite lookup_drop. f_equal. lia.
Qed.

Lemma view_write_length {A} (st x : list A) (lo n : nat) :
  (lo + n ≤ length st)%nat → length x = n →
  length (view_write st (View lo (lo + n)) x) = length st.
Proof.
  intros Hle Hx. unfold view_write, view_len. cbn.
  rewrite !length_app, length_take, length_drop. lia.
Qed.

(** Writing through a view that lies within bin [i] leaves every other bin
    as it was; when the view is the whole of what the array has of bin [i],
    that bin becomes what was written. *)
Lemma chunk_view_write_ne {A} (st x : list A) (b i j lo n : nat) :
  (lo + n ≤ length st)%nat → length x = n →
  (i * b ≤ lo)%nat → (lo + n ≤ i * b + b)%nat → j ≠ i →
  chunk b j (view_write st (View lo (lo + n)) x) = chunk b j st.
Proof.
  intros Hle Hx Hlo Hhi Hji. apply list_eq. intros p.
  rewrite !chunk_lookup. case_decide; [|done].
  rewrite view_write_lookup by done.
  repeat case_decide; try done. exfalso.
  destruct (decide (j < i)%nat); nia.
Qed.

Lemma chunk_view_write_eq {A} (st x : list A) (b i n : nat) :
  (i * b + n ≤ length st)%nat → length x = n →
  (n = b ∨ (n ≤ b ∧ i * b + n = length st))%nat →
  chunk b i (view_write st (View (i * b) (i * b + n)) x) = x.
Proof.
  intros Hle Hx Hn. apply list_eq. intros p.
  rewrite chunk_lookup, view_write_lookup by done.
  repeat case_decide; try lia.
  - f_equal. lia.
  - rewrite (lookup_ge_None_2 st) by lia. symmetry.
    apply lookup_ge_None_2. lia.
  - symmetry. apply lookup_ge_None_2. lia.
Qed.

Lemma chunk_view_read {A} (st : list A) (b i n : nat) :
  (i * b + n ≤ length st)%nat →
  (n = b ∨ (n ≤ b ∧ i * b + n = length st))%nat →
  view_read st (View (i * b) (i * b + n)) = chunk b i st.
Proof.
  intros Hle Hn. unfold view_read, view_len, chunk. cbn.
  replace (i * b + n - i * b)%nat with n by lia.
  destruct Hn as [->|[Hn Hend]]; [done|].
  rewrite !take_ge; [done | |]; rewrite length_drop; lia.
Qed.

(** Shuffling through such a view permutes bin [i] and nothing else. *)
Lemma shuffle_view_chunks {A} (st : list A) (b i n : nat) (g : rng) :
  (i * b + n ≤ length st)%nat →
  (n = b ∨ (n ≤ b ∧ i * b + n = length st))%nat →
  let st' := (shuffle_view st (View (i * b) (i * b + n)) g).1 in
  length st' = length st
  ∧ (∀ j, j ≠ i → chunk b j st' = chunk b j st)
  ∧ chunk b i st' ≡ₚ chunk b i st.
Proof.
  intros Hle Hn. unfold shuffle_view.
  pose proof (shuffle_Permutation (view_read st (View (i * b) (i * b + n))) g)
    as Hperm.
  destruct (shuffle _ g) as [x g']. cbn [fst] in *.
  assert (Hx : length x = n).
  { rewrite Hperm. unfold view_read, view_len. cbn.
    rewrite length_take, length_drop. lia. }
  split_and!.
  - by apply view_write_length.
  - intros j Hj. apply (chunk_view_write_ne st x b i j); try done; lia.
  - rewrite chunk_view_write_eq by done. rewrite Hperm.
    by rewrite chunk_view_read.
Qed.

Lemma np_view_bin (n : nat) (b : Z) (i : nat) :
  0 < b → (Z.of_nat i + 1) * b ≤ Z.of_nat n →
  np_view n (Some (Z.of_nat i * b)) (Some ((Z.of_nat i + 1) * b))
    = bin_view (Z.to_nat b) i.
Proof.
  intros Hb Hle. unfold np_view, bin_view.
  rewrite slice_bounds_in_range by nia. f_equal.
  - rewrite Z2Nat.inj_mul, Nat2Z.id by lia. done.
  - rewrite Z.mul_add_distr_r, Z2Nat.inj_add, Z2Nat.inj_mul, Nat2Z.id by nia.
    by rewrite Z.mul_1_l.
Qed.

Lemma np_view_tail (n a : nat) :
  (a ≤ n)%nat →
  np_view n (Some (Z.of_nat a)) None = View a (a + (n - a)).
Proof.
  intros Hle. unfold np_view, slice_bounds, adjust_index.
  replace (Z.of_nat a <? 0) with false by (symmetry; apply Z.ltb_ge; lia).
  rewrite Z.min_l by lia. f_equal; lia.
Qed.

Lemma fill_bins_spec (b : Z) (n k : nat) (idx : list nat) bins g idx' bins' g' :
  0 < b →
  ((k + n) * Z.to_nat b ≤ length idx)%nat →
  fill_bins b (Z.of_nat <$> seq k n) idx bins g = (idx', bins', g') →
  length idx' = length idx
  ∧ (∀ j, chunk (Z.to_nat b) j idx' ≡ₚ chunk (Z.to_nat b) j idx)
  ∧ bins' = bins ++ (bin_view (Z.to_nat b) <$> seq k n).
Proof.
  intros Hb. revert k idx bins g.
  induction n as [|n IH]; intros k idx bins g Hle Hfill.
  - cbn in Hfill. injection Hfill as <- <- <-. by rewrite app_nil_r.
  - cbn [seq fmap list_fmap fill_bins] in Hfill.
    rewrite np_view_bin in Hfill by nia.
    destruct (shuffle_view_chunks idx (Z.to_nat b) k (Z.to_nat b) g)
      as (Hlen & Hother & Hsame); [lia | by left |].
    unfold bin_view in Hfill at 1.
    destruct (shuffle_view idx _ g) as [idx1 g1]. cbn [fst] in *.
    apply IH in Hfill as (Hlen' & Hchunks & Hbins); [|lia].
    split_and!.
    + lia.
    + intros j. rewrite Hchunks.
      destruct (decide (j = k)) as [->|Hj]; [done|]. by rewrite Hother.
    + rewrite Hbins, <- app_assoc. done.
Qed.

Lemma div_bounds_nat (n : nat) (b : Z) :
  0 < b →
  let q := Z.to_nat (Z.of_nat n / b) in
  Z.of_nat n / b = Z.of_nat q
  ∧ (q * Z.to_nat b ≤ n)%nat
  ∧ (n < q * Z.to_nat b + Z.to_nat b)%nat
  ∧ Z.of_nat n `mod` b = Z.of_nat (n - q * Z.to_nat b).
Proof.
  intros Hb q.
  assert (Hq : 0 ≤ Z.of_nat n / b) by (apply Z.div_pos; lia).
  pose proof (Z.div_mod (Z.of_nat n) b ltac:(lia)) as Hdm.
  pose proof (Z.mod_pos_bound (Z.of_nat n) b Hb) as Hmod.
  assert (Hq' : Z.of_nat n / b = Z.of_nat q) by (unfold q; lia).
  assert (Hbn : b = Z.of_nat (Z.to_nat b)) by lia.
  rewrite Hq' in Hdm. split; [done|].
  assert (Hprod : Z.of_nat (q * Z.to_nat b) = b * Z.of_nat q)
    by (rewrite Nat2Z.inj_mul; lia).
  split_and!; lia.
Qed.

Lemma div_neg_bound (n : nat) (b : Z) : b < 0 → Z.of_nat n / b ≤ 0.
Proof.
  intros Hb.
  pose proof (Z.div_mod (Z.of_nat n) b ltac:(lia)) as Hdm.
  pose proof (Z.mod_neg_bound (Z.of_nat n) b Hb) as Hmod. nia.
Qed.

Lemma Permutation_fmap_inv {A B} (f : A → B) (l : list B) (k : list A) :
  l ≡ₚ f <$> k → ∃ k', l = f <$> k' ∧ k ≡ₚ k'.
Proof.
  revert k. induction l as [|y l IH]; intros k Hperm.
  - apply Permutation_nil_l in Hperm. symmetry in Hperm.
    apply fmap_nil_inv in Hperm as ->. by exists [].
  - assert (Hy : y ∈ f <$> k) by (rewrite <- Hperm; left).
    apply list_elem_of_fmap in Hy as (x & -> & Hx).
    apply elem_of_Permutation in Hx as [k1 Hk1].
    rewrite Hk1 in Hperm. cbn in Hperm. apply Permutation_cons_inv in Hperm.
    destruct (IH k1 Hperm) as (k' & -> & Hk').
    exists (x :: k'). split; [done|]. by rewrite Hk1, Hk'.
Qed.

(** One call of [__iter__]: what it does to the sampler and what it yields. *)
Lemma iter_spec (s : BinnedLengthSampler) (g : rng) :
  let r := (BinnedLengthSampler_iter s g).1.1 in
  let s' := (BinnedLengthSampler_iter s g).1.2 in
  let b := Z.to_nat (bin_size s) in
  batch_size s' = batch_size s
  ∧ bin_size s' = bin_size s
  ∧ length (idx s') = length (idx s)
  ∧ (∀ j, chunk b j (idx s') ≡ₚ chunk b j (idx s))
  ∧ match r with
    | Ok out =>
        (0 < n_bins s)%nat ∧ 0 < bin_size s
        ∧ ∃ order blocks,
            order ≡ₚ seq 0 (n_bins s)
            ∧ Forall2
                (fun k blk => (k < n_bins s)%nat ∧ blk ≡ₚ chunk b k (idx s))
                order blocks
            ∧ out = concat blocks
    | Raise e => n_bins s = 0%nat
    end.
Proof.
  cbn zeta. unfold BinnedLengthSampler_iter, py_floordiv, n_bins, len.
  destruct (Z.eqb_spec (bin_size s) 0) as [H0|H0].
  { cbn. split_and!; try done. by rewrite H0, Z.div_0_r. }
  destruct (fill_bins _ _ _ _ _) as [[idx1 bins1] g1] eqn:Hfill.
  pose proof (shuffle_Permutation bins1 g1) as Hperm.
  destruct (shuffle bins1 g1) as [bins2 g2]. cbn [fst] in Hperm.
  unfold range in Hfill.
  destruct (decide (bin_size s < 0)) as [Hneg|Hpos].
  { pose proof (div_neg_bound (length (idx s)) (bin_size s) Hneg) as Hq.
    replace (Z.to_nat (Z.of_nat (length (idx s)) / bin_size s)) with 0%nat
      in * by lia.
    cbn in Hfill. injection Hfill as <- <- <-.
    apply Permutation_nil_r in Hperm as ->. cbn. by split_and!. }
  assert (Hb : 0 < bin_size s) by lia. clear H0 Hpos.
  destruct (div_bounds_nat (length (idx s)) (bin_size s) Hb)
    as (_ & Hlo & Hhi & _).
  set (nb := Z.to_nat (Z.of_nat (length (idx s)) / bin_size s)) in *.
  set (bn := Z.to_nat (bin_size s)) in *.
  apply fill_bins_spec in Hfill as (Hlen1 & Hch1 & ->); [|done|fold bn; lia].
  cbn [app] in Hperm. fold bn in Hperm, Hch1.
  apply Permutation_fmap_inv in Hperm as (order & -> & Horder).
  symmetry in Horder.
  assert (Hrows : view_read idx1 <$> (bin_view bn <$> order)
                  = (fun k => chunk bn k idx1) <$> order).
  { rewrite <- list_fmap_compose. apply list_fmap_ext.
    intros _ k _. apply view_read_bin. }
  unfold stack_bins. rewrite Hrows. clear Hrows.
  destruct (decide (nb = 0%nat)) as [Hnb|Hnb].
  { rewrite Hnb in Horder. cbn in Horder.
    apply Permutation_nil_r in Horder as ->. cbn. by split_and!. }
  set (rows := (fun k => chunk bn k idx1) <$> order).
  assert (Hblocks : Forall2
            (fun k blk => (k < nb)%nat ∧ blk ≡ₚ chunk bn k (idx s)) order rows).
  { apply Forall2_fmap_r, Forall_Forall2_diag, Forall_forall.
    intros k Hk. rewrite Horder in Hk. apply elem_of_seq in Hk.
    split; [lia | apply Hch1]. }
  assert (Hout : length (concat rows) = (nb * bn)%nat).
  { unfold rows. rewrite Horder, concat_chunks, length_take. lia. }
  rewrite np_stack1_Ok; cycle 1.
  { intros Hnil. apply (f_equal length) in Hnil. unfold rows in Hnil.
    rewrite length_fmap, Horder, length_seq in Hnil. done. }
  { intros r1 r2 (k1 & -> & Hk1)%list_elem_of_fmap
      (k2 & -> & Hk2)%list_elem_of_fmap.
    rewrite Horder in Hk1, Hk2.
    apply elem_of_seq in Hk1, Hk2.
    rewrite !chunk_length; [done | nia | nia]. }
  cbn [bind].
  destruct (Z.of_nat (length (concat rows)) <? Z.of_nat (length idx1)).
  - rewrite np_view_tail by lia. rewrite Hout.
    destruct (shuffle_view_chunks idx1 bn nb (length idx1 - nb * bn) g2)
      as (Hlen2 & Hother & Hsame); [lia | right; lia |].
    destruct (shuffle_view idx1 _ g2) as [idx2 g3]. cbn [fst snd idx batch_size bin_size] in *.
    split_and!; try done; try lia.
    + intros j. rewrite <- Hch1.
      destruct (decide (j = nb)) as [->|Hj]; [done|]. by rewrite Hother.
    + by exists order, rows.
  - cbn [fst snd idx batch_size bin_size].
    split_and!; try done; try lia. by exists order, rows.
Qed.

Lemma init_Ok lengths batch_size0 bin_size0 s0 :
  BinnedLengthSampler_init lengths batch_size0 bin_size0 = Ok s0 →
  idx s0 = argsort lengths
  ∧ batch_size s0 = batch_size0
  ∧ bin_size s0 `mod` batch_size0 = 0
  ∧ batch_size0 ≠ 0.
Proof.
  unfold BinnedLengthSampler_init, py_mod.
  destruct (Z.eqb_spec batch_size0 0) as [|Hne]; [done|]. cbn [bind].
  match goal with |- context [?m =? 0] =>
    destruct (Z.eqb_spec m 0) as [Hm|]; [|done] end.
  intros [= <-]. by cbn.
Qed.

(** Calls of [__iter__] leave the sizes alone and permute [idx] within its
    bins. *)
Lemma iterated_inv s0 s :
  iterated s0 s →
  batch_size s = batch_size s0
  ∧ bin_size s = bin_size s0
  ∧ length (idx s) = length (idx s0)
  ∧ (∀ j, chunk (Z.to_nat (bin_size s0)) j (idx s)
          ≡ₚ chunk (Z.to_nat (bin_size s0)) j (idx s0)).
Proof.
  induction 1 as [|s g _ (IHbatch & IHbin & IHlen & IHchunks)]; [done|].
  destruct (iter_spec s g) as (Hbatch & Hbin & Hlen & Hchunks & _).
  cbn zeta in *. rewrite IHbin in Hchunks. split_and!; try congruence.
  intros j. by rewrite Hchunks.
Qed.

Lemma iterated_n_bins s0 s : iterated s0 s → n_bins s = n_bins s0.
Proof.
  intros (_ & Hbin & Hlen & _)%iterated_inv.
  unfold n_bins, len. by rewrite Hbin, Hlen.
Qed.

(** C3: at every call of the iterator, on the sampler as built or as earlier
    calls left it, the output is a concatenation of blocks of [bin_size]
    indices, one block for each full bin of the length-sorted order that the
    sampler was built with, each block a permutation of its bin, the bins
    taken in a permuted order; the call raises only when there is no full
    bin. *)
Theorem iter_yields_permuted_bins_in_blocks
    lengths batch_size0 bin_size0 s0 s g :
  BinnedLengthSampler_init lengths batch_size0 bin_size0 = Ok s0 →
  iterated s0 s →
  let b := Z.to_nat (bin_size s0) in
  let sorted := idx s0 in
  Sorted (length_le lengths) sorted
  ∧ sorted ≡ₚ seq 0 (length lengths)
  ∧ match (BinnedLengthSampler_iter s g).1.1 with
    | Ok out =>
        ∃ order blocks,
          order ≡ₚ seq 0 (n_bins s0)
          ∧ Forall2
              (fun k blk =>
                 length blk = b ∧ blk ≡ₚ take b (drop (k * b) sorted))
              order blocks
          ∧ out = concat blocks
    | Raise e => n_bins s0 = 0%nat
    end.
Proof.
  intros Hinit Hiter. cbn zeta.
  apply init_Ok in Hinit as (Hidx & _).
  split; [rewrite Hidx; apply argsort_Sorted|].
  split; [rewrite Hidx; apply argsort_Permutation|].
  pose proof (iterated_n_bins s0 s Hiter) as Hnb.
  destruct (iterated_inv s0 s Hiter) as (_ & Hbin & Hlen & Hchunks).
  destruct (iter_spec s g) as (_ & _ & _ & _ & Hout). cbn zeta in Hout.
  destruct (BinnedLengthSampler_iter s g).1.1 as [out|e]; [|lia].
  destruct Hout as (Hpos & Hb & order & blocks & Horder & Hblocks & ->).
  exists order, blocks. rewrite <- Hnb. split; [done|]. split; [|done].
  eapply Forall2_impl; [exact Hblocks|]. intros k blk [Hk Hblk]. cbn beta.
  rewrite Hbin, Hchunks in Hblk. split; [|exact Hblk].
  rewrite Hblk. fold (chunk (Z.to_nat (bin_size s0)) k (idx s0)).
  apply chunk_length. rewrite <- Hlen.
  destruct (div_bounds_nat (length (idx s)) (bin_size s) Hb) as (_ & Hlo & _).
  unfold n_bins, len in Hk. rewrite <- Hbin. nia.
Qed.

(** When [bin_size] divides the number of lengths and there is at least one
    bin, a call yields a permutation of all the indices. *)
Lemma iter_permutes_when_bins_fit
    lengths batch_size0 bin_size0 s0 s g :
  BinnedLengthSampler_init lengths batch_size0 bin_size0 = Ok s0 →
  iterated s0 s →
  0 < bin_size s0 ≤ len lengths →
  len lengths `mod` bin_size s0 = 0 →
  ∃ out, (BinnedLengthSampler_iter s g).1.1 = Ok out
         ∧ out ≡ₚ seq 0 (length lengths).
Proof.
  intros Hinit Hiter [Hb Hle] Hrem.
  apply init_Ok in Hinit as (Hidx & _).
  assert (HN : length (idx s0) = length lengths)
    by (by rewrite Hidx, argsort_Permutation, length_seq).
  pose proof (iterated_n_bins s0 s Hiter) as Hnb.
  destruct (iterated_inv s0 s Hiter) as (_ & Hbin & Hlen & Hchunks).
  destruct (iter_spec s g) as (_ & _ & _ & _ & Hout). cbn zeta in Hout.
  destruct (div_bounds_nat (length lengths) (bin_size s0) Hb)
    as (Hq & Hlo & Hhi & Hmod).
  unfold len in *. rewrite Hnb in Hout. unfold n_bins, len in Hout.
  rewrite HN in Hout.
  set (nb := Z.to_nat (Z.of_nat (length lengths) / bin_size s0)) in *.
  set (bn := Z.to_nat (bin_size s0)) in *.
  destruct (BinnedLengthSampler_iter s g).1.1 as [out|e].
  - destruct Hout as (Hpos & _ & order & blocks & Horder & Hblocks & ->).
    eexists. split; [done|].
    rewrite <- argsort_Permutation.
    rewrite <- (take_ge (argsort lengths) (nb * bn)); cycle 1.
    { rewrite <- Hidx, HN. lia. }
    rewrite <- concat_chunks, <- Horder.
    apply concat_Permutation_blocks, Forall2_fmap_r, Forall2_flip.
    eapply Forall2_impl; [exact Hblocks|]. intros k blk [_ Hblk]. cbn beta.
    rewrite Hbin in Hblk. fold bn in Hblk. by rewrite Hblk, Hchunks, Hidx.
  - exfalso. rewrite Hout in Hhi. lia.
Qed.

(** C1 fails on the code.  When [bin_size] does not divide the number of
    lengths, no call of the iterator yields a permutation of the indices:
    it yields exactly the indices of the full bins of the sorted order, so
    the [N mod bin_size] last sorted indices are never yielded; with no full
    bin at all it raises. *)
Theorem iter_omits_leftover_indices
    lengths batch_size0 bin_size0 s0 s g :
  BinnedLengthSampler_init lengths batch_size0 bin_size0 = Ok s0 →
  iterated s0 s →
  0 < bin_size s0 →
  len lengths `mod` bin_size s0 ≠ 0 →
  match (BinnedLengthSampler_iter s g).1.1 with
  | Ok out =>
      out ≡ₚ take (Z.to_nat (len lengths - len lengths `mod` bin_size s0))
               (idx s0)
      ∧ len out = len lengths - len lengths `mod` bin_size s0
      ∧ ¬ out ≡ₚ seq 0 (length lengths)
  | Raise e => len lengths < bin_size s0
  end.
Proof.
  intros Hinit Hiter Hb Hrem.
  apply init_Ok in Hinit as (Hidx & _). rewrite Hidx.
  assert (HN : length (idx s0) = length lengths)
    by (by rewrite Hidx, argsort_Permutation, length_seq).
  pose proof (iterated_n_bins s0 s Hiter) as Hnb.
  destruct (iterated_inv s0 s Hiter) as (_ & Hbin & Hlen & Hchunks).
  destruct (iter_spec s g) as (_ & _ & _ & _ & Hout). cbn zeta in Hout.
  destruct (div_bounds_nat (length lengths) (bin_size s0) Hb)
    as (Hq & Hlo & Hhi & Hmod).
  unfold len in *. rewrite Hnb in Hout. unfold n_bins, len in Hout.
  rewrite HN in Hout.
  set (nb := Z.to_nat (Z.of_nat (length lengths) / bin_size s0)) in *.
  set (bn := Z.to_nat (bin_size s0)) in *.
  destruct (BinnedLengthSampler_iter s g).1.1 as [out|e].
  - destruct Hout as (Hpos & _ & order & blocks & Horder & Hblocks & ->).
    assert (Hperm : concat blocks ≡ₚ take (nb * bn) (argsort lengths)).
    { rewrite <- concat_chunks, <- Horder.
      apply concat_Permutation_blocks, Forall2_fmap_r, Forall2_flip.
      eapply Forall2_impl; [exact Hblocks|]. intros k blk [_ Hblk]. cbn beta.
      rewrite Hbin in Hblk. fold bn in Hblk. by rewrite Hblk, Hchunks, Hidx. }
    assert (Hcount : length (concat blocks) = (nb * bn)%nat).
    { rewrite Hperm, length_take, <- Hidx, HN. lia. }
    replace (Z.to_nat (Z.of_nat (length lengths)
                       - Z.of_nat (length lengths) `mod` bin_size s0))
      with (nb * bn)%nat by lia.
    split_and!; [done | lia |].
    intros Hall. apply Permutation_length in Hall.
    rewrite length_seq in Hall. lia.
  - rewrite Hout in Hlo, Hhi. lia.
Qed.

(** The call on five lengths with bins of four, traced: index 0, the one
    left over after the full bin of the sorted order, is not yielded. *)
Example iter_five_lengths_bins_of_four :
  BinnedLengthSampler_init [5; 4; 3; 2; 1] 2 (Some 4)
    = Ok (Sampler [4; 3; 2; 1; 0]%nat 2 4)
  ∧ BinnedLengthSampler_iter (Sampler [4; 3; 2; 1; 0]%nat 2 4) [3; 1; 4]%nat
    = (Ok [2; 4; 3; 1]%nat, Sampler [2; 4; 3; 1; 0]%nat 2 4, []).
Proof. split; reflexivity. Qed.

(** * Examples and instances at concrete inputs *)

(** C2 fails on the code: with the kept id ["c"] absent from the text map,
    [get_tts_dataset] still returns its loader; the [KeyError] comes when
    record 1 is fetched. *)
Lemma get_tts_dataset_builds_with_text_missing :
  dataset_pkl storage_example = Some corpus_example
  ∧ (tts_index hp_example corpus_example [] []).1 !! 1%nat = Some "c"%string
  ∧ text_dict_pkl storage_example = Some {[ "a"%string := "hello"%string ]}
  ∧ ({[ "a"%string := "hello"%string ]} : gmap string string) !! "c"%string = None
  ∧ ∃ dl,
      get_tts_dataset (H:=binary32) hp_example storage_example 32 = Ok dl
      ∧ metadata (dl_dataset dl) = ["a"; "c"; "d"]%string
      ∧ TTSDataset_getitem (H:=binary32) hp_example (fun _ _ => [])
          storage_example (dl_dataset dl) 1 = Raise KeyError.
Proof.
  split_and!; [reflexivity..|]. eexists. split; [reflexivity|].
  split; reflexivity.
Qed.

Lemma get_tts_dataset_defers_text_lookup_witness :
  ∃ dl,
    get_tts_dataset (H:=binary32) hp_example storage_example 32 = Ok dl
    ∧ metadata (dl_dataset dl) = (tts_index hp_example corpus_example [] []).1
    ∧ text_dict (dl_dataset dl) = {[ "a"%string := "hello"%string ]}
    ∧ (∀ index id,
         py_index (metadata (dl_dataset dl)) index = Ok id →
         ({[ "a"%string := "hello"%string ]} : gmap string string) !! id = None →
         TTSDataset_getitem (H:=binary32) hp_example (fun _ _ => [])
           storage_example (dl_dataset dl) index = Raise KeyError).
Proof.
  apply (get_tts_dataset_defers_text_lookup (H:=binary32) hp_example
           (fun _ _ => []) storage_example 32 corpus_example
           {[ "a"%string := "hello"%string ]});
    [reflexivity | reflexivity | reflexivity | right; reflexivity].
Defined.

Lemma tts_index_keeps_short_records_in_order_witness :
  zip (tts_index hp_example corpus_example [] []).1
      (tts_index hp_example corpus_example [] []).2
    = filter (fun r => r.2 ≤ tts_max_input_len hp_example) corpus_example
  ∧ (∀ dl, get_tts_dataset (H:=binary32) hp_example storage_example 32 = Ok dl →
           metadata (dl_dataset dl)
             = (tts_index hp_example corpus_example [] []).1).
Proof.
  destruct (tts_index_keeps_short_records_in_order (H:=binary32)
              hp_example corpus_example) as (Hzip & _ & _ & Hloader).
  split; [exact Hzip|]. intros dl Hdl.
  apply (Hloader storage_example 32 dl); [reflexivity | exact Hdl].
Defined.

Lemma vocoder_split_holds_out_last_witness :
  let train_ids := (vocoder_split hp_example seed_example corpus_example).1 in
  let test_ids := (vocoder_split hp_example seed_example corpus_example).2 in
  test_ids = drop 3 (shuffled_ids seed_example corpus_example)
  ∧ train_ids = take 3 (shuffled_ids seed_example corpus_example)
  ∧ len test_ids = 2
  ∧ (∀ id, id ∈ train_ids → id ∉ test_ids)
  ∧ (∀ train_set test_set,
       get_vocoder_datasets hp_example seed_example storage_example 16
         = Ok (train_set, test_set) →
       voc_metadata (dl_dataset train_set) = train_ids
       ∧ voc_metadata (dl_dataset test_set) = test_ids).
Proof.
  cbn zeta.
  destruct (vocoder_split_holds_out_last (F:=spec_float) hp_example
              seed_example corpus_example)
    as (Htest & Htrain & _ & Hlen & Hdisj & Hsets).
  - apply (bool_decide_unpack _). vm_compute. exact I.
  - split; vm_compute; [reflexivity | discriminate].
  - split_and!; [exact Htest | exact Htrain | exact Hlen | exact Hdisj |].
    intros train_set test_set Hget.
    apply (Hsets storage_example 16); [reflexivity | exact Hget].
Defined.

Lemma vocoder_split_zero_holds_out_all_witness :
  vocoder_split hp_no_test seed_example corpus_example
    = ([], shuffled_ids seed_example corpus_example)
  ∧ (∀ train_set test_set,
       get_vocoder_datasets hp_no_test seed_example storage_example 16
         = Ok (train_set, test_set) →
       voc_metadata (dl_dataset train_set) = []
       ∧ voc_metadata (dl_dataset test_set)
           = shuffled_ids seed_example corpus_example).
Proof.
  destruct (vocoder_split_zero_holds_out_all (F:=spec_float) hp_no_test
              seed_example corpus_example) as [Hsplit Hsets].
  - reflexivity.
  - split; [exact Hsplit|]. intros train_set test_set Hget.
    apply (Hsets storage_example 16); [reflexivity | exact Hget].
Defined.

(** The split of the five-record corpus, traced. *)
Example vocoder_split_traced :
  shuffled_ids seed_example corpus_example = ["a"; "d"; "e"; "c"; "b"]%string
  ∧ vocoder_split hp_example seed_example corpus_example
    = (["a"; "d"; "e"], ["c"; "b"])%string
  ∧ vocoder_split hp_no_test seed_example corpus_example
    = ([], ["a"; "d"; "e"; "c"; "b"])%string.
Proof. split_and!; reflexivity. Qed.

Lemma collate_vocoder_short_example_raises_witness :
  (∃ e, (collate_vocoder hp_example id code_as_float
           vocoder_short_example [5; 3]%nat).1 = Raise e)
  ∧ (hop_length hp_example ≠ 0 →
     (collate_vocoder hp_example id code_as_float
        vocoder_short_example [5; 3]%nat).1 = Raise ValueError).
Proof.
  apply (collate_vocoder_short_example_raises hp_example id
           code_as_float vocoder_short_example [5; 3]%nat).
  apply Exists_cons_tl, Exists_cons_hd. vm_compute. discriminate.
Defined.

Lemma collate_vocoder_crops_aligned_witness :
  let window := voc_seq_len hp_example / hop_length hp_example
                + 2 * voc_pad hp_example in
  window = 14
  ∧ ∃ c g',
      collate_vocoder_crops hp_example vocoder_batch_example [5; 3]%nat
        = (Ok c, g')
      ∧ mel_win c = window
      ∧ Forall2
          (fun o x => 0 ≤ o < Z.of_nat (n_cols x.1)
                               - (window + 2 * voc_pad hp_example))
          (mel_offsets c) vocoder_batch_example
      ∧ Forall2 (fun s o => s = (o + voc_pad hp_example) * hop_length hp_example)
          (sig_offsets c) (mel_offsets c)
      ∧ Forall2 (fun m x => n_rows m = n_rows x.1 ∧ Z.of_nat (n_cols m) = window)
          (mels c) vocoder_batch_example
      ∧ Forall2 (fun w x => len w = voc_seq_len hp_example + 1)
          (labels c) vocoder_batch_example.
Proof.
  cbn zeta. split; [reflexivity|].
  destruct (collate_vocoder_crops_aligned hp_example id code_as_float
              vocoder_batch_example [5; 3]%nat)
    as (c & g' & Hc & Hwin & Hoffs & Hsig & Hmels & Hlabels & _).
  - reflexivity.
  - discriminate.
  - discriminate.
  - repeat constructor; vm_compute; congruence.
  - exists c, g'. by split_and!.
Defined.

Lemma collate_tts_output_widths_witness :
  ∃ chars mel max_x max_m width,
    collate_tts (H:=binary32) hp_example tts_batch_example = Ok (chars, mel)
    ∧ is_max max_x ((fun x => len x.1) <$> tts_batch_example)
    ∧ is_max max_m ((fun x => Z.of_nat (n_cols x.2)) <$> tts_batch_example)
    ∧ Forall2
        (fun row x =>
           len row = max_x
           ∧ row = x.1 ++ replicate (Z.to_nat (max_x - len x.1)) 0)
        chars tts_batch_example
    ∧ Forall2 (fun m x => Z.of_nat (n_cols m) = width) mel tts_batch_example
    ∧ width `mod` tts_r hp_example = 0
    ∧ max_m + 1 ≤ width
    ∧ (∀ w, w `mod` tts_r hp_example = 0 → max_m + 1 ≤ w → width ≤ w).
Proof.
  apply (collate_tts_output_widths (H:=binary32) hp_example tts_batch_example).
  - discriminate.
  - reflexivity.
  - intros x y Hx Hy. unfold tts_batch_example in Hx, Hy.
    rewrite !elem_of_cons, elem_of_nil in Hx, Hy.
    destruct Hx as [->|[->|[]]], Hy as [->|[->|[]]]; reflexivity.
Defined.

Lemma collate_tts_padding_is_minus_four_witness :
  ∃ chars mel,
    collate_tts (H:=binary32) hp_example tts_batch_example = Ok (chars, mel)
    ∧ Forall2
        (fun m x =>
           n_rows m = n_rows x.2
           ∧ (n_cols x.2 < n_cols m)%nat
           ∧ ∀ c t, (c < n_rows m)%nat → (t < n_cols m)%nat →
               cell m c t =
                 if (t <? n_cols x.2)%nat
                 then fsub (fmul (cell x.2 c t) (of_int 8)) (of_int 4)
                 else of_int (-4))
        mel tts_batch_example.
Proof.
  apply (collate_tts_padding_is_minus_four (H:=binary32)
           hp_example tts_batch_example).
  - discriminate.
  - reflexivity.
  - intros x y Hx Hy. unfold tts_batch_example in Hx, Hy.
    rewrite !elem_of_cons, elem_of_nil in Hx, Hy.
    destruct Hx as [->|[->|[]]], Hy as [->|[->|[]]]; reflexivity.
Defined.

(** The scenario of the specification: token lengths 5 and 8, mels of 20
    and 17 frames, [tts_r = 5]; the tokens come out 8 wide, the mels 25
    wide, and frame 20 of the first mel (its first padded frame) is -4. *)
Example collate_tts_scenario :
  match collate_tts (H:=binary32) hp_example tts_batch_example with
  | Ok (chars, mel) =>
      chars = [replicate 5 7 ++ replicate 3 0; replicate 8 9]
      ∧ n_cols <$> mel = [25; 25]%nat
      ∧ (fun m => cell m 0%nat 20%nat) <$> mel
        = [ieee_of_int 24 128 (-4); ieee_of_int 24 128 (-4)]
      ∧ (fun m => cell m 0%nat 16%nat) <$> mel
        = [ieee_of_int 24 128 4; ieee_of_int 24 128 4]
  | Raise _ => False
  end.
Proof. vm_compute. by split_and!. Qed.

Lemma iter_yields_permuted_bins_in_blocks_witness :
  let s0 := Sampler [4; 3; 2; 1; 0]%nat 2 4 in
  let s1 := (BinnedLengthSampler_iter s0 [3; 1; 4]%nat).1.2 in
  Sorted (length_le [5; 4; 3; 2; 1]) (idx s0)
  ∧ idx s0 ≡ₚ seq 0 5
  ∧ match (BinnedLengthSampler_iter s1 [2; 7; 1]%nat).1.1 with
    | Ok out =>
        ∃ order blocks,
          order ≡ₚ seq 0 (n_bins s0)
          ∧ Forall2
              (fun k blk =>
                 length blk = 4%nat ∧ blk ≡ₚ take 4 (drop (k * 4) (idx s0)))
              order blocks
          ∧ out = concat blocks
    | Raise e => n_bins s0 = 0%nat
    end.
Proof.
  cbn zeta.
  apply (iter_yields_permuted_bins_in_blocks [5; 4; 3; 2; 1] 2 (Some 4)
           (Sampler [4; 3; 2; 1; 0]%nat 2 4)
           (BinnedLengthSampler_iter (Sampler [4; 3; 2; 1; 0]%nat 2 4)
              [3; 1; 4]%nat).1.2
           [2; 7; 1]%nat).
  - reflexivity.
  - apply iterated_S, iterated_0.
Defined.

Lemma iter_omits_leftover_indices_witness :
  match (BinnedLengthSampler_iter (Sampler [4; 3; 2; 1; 0]%nat 2 4)
           [3; 1; 4]%nat).1.1 with
  | Ok out =>
      out ≡ₚ take (Z.to_nat (5 - 5 `mod` 4)) [4; 3; 2; 1; 0]%nat
      ∧ len out = 5 - 5 `mod` 4
      ∧ ¬ out ≡ₚ seq 0 5
  | Raise e => 5 < 4
  end.
Proof.
  apply (iter_omits_leftover_indices [5; 4; 3; 2; 1] 2 (Some 4)
           (Sampler [4; 3; 2; 1; 0]%nat 2 4)
           (Sampler [4; 3; 2; 1; 0]%nat 2 4) [3; 1; 4]%nat).
  - reflexivity.
  - apply iterated_0.
  - reflexivity.
  - discriminate.
Defined.

(** The vocoder scenario of the specification: a mel of 40 frames gives
    [mel_win = 14] and [max_offset = 22]; the drawn offset 5 gives the
    waveform offset [(5 + 2) * 200] and a crop of 2001 samples. *)
Example collate_vocoder_scenario :
  match collate_vocoder_crops hp_example vocoder_batch_example [5; 3]%nat with
  | (Ok c, _) =>
      mel_win c = 14
      ∧ max_offsets c = [22; 1]
      ∧ mel_offsets c = [5; 0]
      ∧ sig_offsets c = [1400; 400]
      ∧ n_cols <$> mels c = [14; 14]%nat
      ∧ len <$> labels c = [2001; 2001]
  | (Raise _, _) => False
  end.
Proof. vm_compute. by split_and!. Qed.

(** * Further properties of the sampler *)

(** An array is what lies before a view, what the view names and what lies
    after it. *)
Lemma view_decompose {A} (st : list A) (v : view) :
  st = take (v_lo v) st ++ view_read st v ++ drop (v_lo v + view_len v) st.
Proof.
  unfold view_read.
  rewrite <- (take_drop (v_lo v) st) at 1. f_equal.
  rewrite <- (take_drop (view_len v) (drop (v_lo v) st)) at 1.
  by rewrite drop_drop.
Qed.

Lemma shuffle_view_Permutation {A} (st : list A) (v : view) (g : rng) :
  (shuffle_view st v g).1 ≡ₚ st.
Proof.
  unfold shuffle_view.
  pose proof (shuffle_Permutation (view_read st v) g) as Hperm.
  destruct (shuffle (view_read st v) g) as [x g']. cbn [fst] in *.
  rewrite (view_decompose st v) at 2. unfold view_write. by rewrite Hperm.
Qed.

Lemma fill_bins_Permutation (b : Z) todo (idx : list nat) bins g :
  (fill_bins b todo idx bins g).1.1 ≡ₚ idx.
Proof.
  revert idx bins g. induction todo as [|i todo IH]; intros idx bins g; [done|].
  cbn [fill_bins].
  pose proof (shuffle_view_Permutation idx
    (np_view (length idx) (Some (i * b)) (Some ((i + 1) * b))) g) as Hperm.
  destruct (shuffle_view idx _ g) as [idx' g']. cbn [fst] in Hperm.
  by rewrite IH.
Qed.

Lemma iter_idx_Permutation (s : BinnedLengthSampler) (g : rng) :
  idx (BinnedLengthSampler_iter s g).1.2 ≡ₚ idx s.
Proof.
  unfold BinnedLengthSampler_iter.
  destruct (py_floordiv _ _) as [q|e]; [|done].
  pose proof (fill_bins_Permutation (bin_size s) (range q) (idx s) [] g) as H1.
  destruct (fill_bins _ _ _ _ _) as [[idx1 bins1] g1]. cbn [fst] in H1.
  destruct (shuffle bins1 g1) as [bins2 g2].
  destruct (stack_bins idx1 bins2) as [binned_idx|e]; [|done].
  destruct (len binned_idx <? len idx1); [|done].
  pose proof (shuffle_view_Permutation idx1
    (np_view (length idx1) (Some (len binned_idx)) None) g2) as H2.
  destruct (shuffle_view idx1 _ g2) as [idx2 g3]. cbn [fst snd idx] in *.
  by rewrite H2.
Qed.

Lemma iterated_idx_Permutation s0 s : iterated s0 s → idx s ≡ₚ idx s0.
Proof.
  induction 1 as [|s g _ IH]; [done|]. by rewrite iter_idx_Permutation.
Qed.

Lemma init_bin_size lengths batch_size0 bin_size0 s0 :
  BinnedLengthSampler_init lengths batch_size0 bin_size0 = Ok s0 →
  bin_size s0 ≠ 0
  ∧ bin_size s0 =
      match bin_size0 with
      | Some b => if b =? 0 then batch_size0 * 4 else b
      | None => batch_size0 * 4
      end.
Proof.
  unfold BinnedLengthSampler_init, py_mod.
  destruct (Z.eqb_spec batch_size0 0) as [|Hne]; [done|]. cbn [bind].
  match goal with |- context [?m =? 0] =>
    destruct (Z.eqb_spec m 0) as [Hm|]; [|done] end.
  intros [= <-]. cbn [bin_size]. split; [|done].
  destruct bin_size0 as [b|]; [|lia].
  destruct (Z.eqb_spec b 0); lia.
Qed.

(** X1: [__init__] with a falsy [bin_size] and a batch size other than zero
    always passes its assertion, taking bins of four batches; and whatever
    sampler [__init__] returns holds the positions [0..N-1] in ascending
    order of length, with a bin size that is not zero and is a multiple of
    the batch size. *)
Theorem init_default_bins_and_sorted_idx lengths batch_size0 bin_size0 :
  (batch_size0 ≠ 0 →
   bin_size0 = None ∨ bin_size0 = Some 0 →
   BinnedLengthSampler_init lengths batch_size0 bin_size0
     = Ok (Sampler (argsort lengths) batch_size0 (batch_size0 * 4)))
  ∧ (∀ s0,
       BinnedLengthSampler_init lengths batch_size0 bin_size0 = Ok s0 →
       idx s0 ≡ₚ seq 0 (length lengths)
       ∧ Sorted (length_le lengths) (idx s0)
       ∧ bin_size s0 ≠ 0
       ∧ bin_size s0 `mod` batch_size s0 = 0).
Proof.
  split.
  - intros Hb Hfalsy. unfold BinnedLengthSampler_init, py_mod.
    replace (batch_size0 =? 0) with false by (symmetry; by apply Z.eqb_neq).
    assert (Hmod : (batch_size0 * 4) `mod` batch_size0 = 0).
    { rewrite Z.mul_comm. by apply Z.mod_mul. }
    destruct Hfalsy as [-> | ->]; cbn [Z.eqb bind]; by rewrite Hmod.
  - intros s0 Hinit.
    destruct (init_bin_size _ _ _ _ Hinit) as [Hnz _].
    apply init_Ok in Hinit as (Hidx & Hbatch & Hmod & _).
    rewrite Hidx, Hbatch.
    split_and!; [apply argsort_Permutation | apply argsort_Sorted | done..].
Qed.

(** X2: calls of [__iter__] shuffle [self.idx] in place but keep it a
    permutation of [0..N-1]; so [__len__] is [N] before and after every
    call, and the two sizes never change. *)
Theorem iter_keeps_idx_a_permutation
    lengths batch_size0 bin_size0 s0 s :
  BinnedLengthSampler_init lengths batch_size0 bin_size0 = Ok s0 →
  iterated s0 s →
  idx s ≡ₚ seq 0 (length lengths)
  ∧ BinnedLengthSampler_len s = len lengths
  ∧ batch_size s = batch_size s0
  ∧ bin_size s = bin_size s0.
Proof.
  intros Hinit Hiter.
  apply init_Ok in Hinit as (Hidx & _).
  pose proof (iterated_idx_Permutation s0 s Hiter) as Hperm.
  destruct (iterated_inv s0 s Hiter) as (Hbatch & Hbin & _).
  rewrite Hidx, argsort_Permutation in Hperm.
  split_and!; [done | | done | done].
  unfold BinnedLengthSampler_len, len. by rewrite Hperm, length_seq.
Qed.

(** Without a full bin the call raises at [np.stack] and touches nothing. *)
Lemma iter_raises_without_bins (s : BinnedLengthSampler) (g : rng) :
  bin_size s ≠ 0 → n_bins s = 0%nat →
  BinnedLengthSampler_iter s g = (Raise ValueError, s, g).
Proof.
  intros Hnz Hnb. unfold BinnedLengthSampler_iter, py_floordiv.
  replace (bin_size s =? 0) with false by (symmetry; by apply Z.eqb_neq).
  unfold range. unfold n_bins in Hnb. rewrite Hnb. cbn. by destruct s.
Qed.

(** X3: a sampler with fewer lengths than [bin_size] (or with a negative
    [bin_size]) raises [ValueError] at every call of [__iter__], and the
    call leaves the sampler and the generator as they were. *)
Theorem iter_raises_when_no_bin_fills
    lengths batch_size0 bin_size0 s0 s g :
  BinnedLengthSampler_init lengths batch_size0 bin_size0 = Ok s0 →
  iterated s0 s →
  len lengths < bin_size s0 ∨ bin_size s0 < 0 →
  BinnedLengthSampler_iter s g = (Raise ValueError, s, g).
Proof.
  intros Hinit Hiter Hsmall.
  destruct (init_bin_size _ _ _ _ Hinit) as [Hnz _].
  apply init_Ok in Hinit as (Hidx & _).
  assert (HN : length (idx s0) = length lengths)
    by (by rewrite Hidx, argsort_Permutation, length_seq).
  pose proof (iterated_n_bins s0 s Hiter) as Hnb.
  destruct (iterated_inv s0 s Hiter) as (_ & Hbin & _).
  apply iter_raises_without_bins; [congruence|].
  rewrite Hnb. unfold n_bins, len in *. rewrite HN.
  destruct Hsmall as [Hlt|Hneg].
  - rewrite Z.div_small by lia. done.
  - pose proof (div_neg_bound (length lengths) (bin_size s0) Hneg). lia.
Qed.


Lemma concat_lookup_uniform {A} (b : nat) (blocks : list (list A)) (k q : nat) :
  Forall (fun blk => length blk = b) blocks → (q < b)%nat →
  concat blocks !! (k * b + q)%nat = blocks !! k ≫= (fun blk => blk !! q).
Proof.
  intros Hlen Hq. revert k.
  induction Hlen as [|blk blocks Hblk _ IH]; intros k; [by destruct k|].
  cbn [concat]. destruct k as [|k].
  - cbn. by rewrite lookup_app_l by lia.
  - rewrite lookup_app_r by (cbn; lia). cbn [lookup list_lookup mbind option_bind].
    rewrite <- IH. f_equal. cbn. lia.
Qed.

Lemma concat_length_uniform {A} (b : nat) (blocks : list (list A)) :
  Forall (fun blk => length blk = b) blocks →
  length (concat blocks) = (length blocks * b)%nat.
Proof.
  induction 1 as [|blk blocks Hblk _ IH]; [done|].
  cbn. rewrite length_app, IH, Hblk. lia.
Qed.

(** X5: what the assertion of [__init__] is for.  Cut into consecutive
    batches of [batch_size], the output of [__iter__] never has a batch that
    straddles two bins: all the indices of a batch come from one bin of the
    length-sorted order. *)
Theorem iter_batches_stay_within_a_bin
    lengths batch_size0 bin_size0 s0 s g out (j : nat) :
  BinnedLengthSampler_init lengths batch_size0 bin_size0 = Ok s0 →
  iterated s0 s →
  0 < batch_size s0 →
  (BinnedLengthSampler_iter s g).1.1 = Ok out →
  let bs := Z.to_nat (batch_size s0) in
  let b := Z.to_nat (bin_size s0) in
  (j * bs + bs ≤ length out)%nat →
  ∃ k, (k < n_bins s0)%nat
       ∧ ∀ i, i ∈ take bs (drop (j * bs) out) →
              i ∈ take b (drop (k * b) (idx s0)).
Proof.
  intros Hinit Hiter Hbs Hr. cbn zeta. intros Hj.
  apply init_Ok in Hinit as (Hidx & Hbatch & Hmod & _).
  rewrite <- Hbatch in Hmod.
  pose proof (iterated_n_bins s0 s Hiter) as Hnb.
  destruct (iterated_inv s0 s Hiter) as (_ & Hbin & Hlen & Hchunks).
  destruct (iter_spec s g) as (_ & _ & _ & _ & Hout). cbn zeta in Hout.
  rewrite Hr in Hout.
  destruct Hout as (Hpos & Hb & order & blocks & Horder & Hblocks & ->).
  rewrite Hbin in Hb, Hblocks. rewrite Hnb in Horder, Hblocks.
  destruct (div_bounds_nat (length (idx s0)) (bin_size s0) Hb)
    as (_ & Hlo & _).
  fold (len (idx s0)) in Hlo. fold (n_bins s0) in Hlo.
  set (bn := Z.to_nat (bin_size s0)) in *.
  set (bsz := Z.to_nat (batch_size s0)) in *.
  assert (Hblen : Forall (fun blk => length blk = bn) blocks).
  { eapply Forall2_Forall_r; [exact Hblocks|]. apply Forall_true.
    intros k blk [Hk Hblk]. rewrite Hblk. apply chunk_length. nia. }
  assert (Hcount : length blocks = n_bins s0).
  { rewrite <- (Forall2_length _ _ _ Hblocks), Horder. apply length_seq. }
  assert (Hout : length (concat blocks) = (n_bins s0 * bn)%nat).
  { rewrite <- Hcount. by apply concat_length_uniform. }
  (* the bin size as a number of batches *)
  assert (Hm : ∃ m, (0 < m)%nat ∧ bn = (m * bsz)%nat).
  { exists (Z.to_nat (bin_size s0 / batch_size s0)).
    apply Z.div_exact in Hmod; [|lia].
    assert (0 < bin_size s0 / batch_size s0) by nia.
    split; [lia|]. unfold bn, bsz.
    rewrite <- Z2Nat.inj_mul by lia. f_equal. lia. }
  destruct Hm as (m & Hm & Hbn).
  pose proof (Nat.div_mod_eq j m) as Hdiv.
  pose proof (Nat.mod_upper_bound j m ltac:(lia)) as Hrem.
  set (kk := (j / m)%nat) in *. set (r := (j mod m)%nat) in *.
  assert (Hkk : (kk < n_bins s0)%nat) by (rewrite Hout in Hj; nia).
  destruct (lookup_lt_is_Some_2 blocks kk) as [blk Hblk]; [lia|].
  destruct (Forall2_lookup_r _ _ _ _ _ Hblocks Hblk) as (k & Hk & Hklt & Hperm).
  exists k. split; [done|].
  intros i Hi. fold (chunk bsz j (concat blocks)) in Hi.
  apply list_elem_of_lookup in Hi as [p Hp].
  rewrite chunk_lookup in Hp. case_decide as Hpb; [|done].
  replace (j * bsz + p)%nat with (kk * bn + (r * bsz + p))%nat in Hp by nia.
  rewrite concat_lookup_uniform in Hp by (done || nia).
  rewrite Hblk in Hp. cbn in Hp.
  apply list_elem_of_lookup_2 in Hp. rewrite Hperm, Hchunks in Hp. exact Hp.
Qed.

(** * Further properties of the vocoder split and the datasets *)

(** [l[:j] + l[j:] == l], for every [j]. *)
Lemma py_slice_partition {A} (l : list A) (j : Z) :
  py_slice l None (Some j) ++ py_slice l (Some j) None = l.
Proof.
  unfold py_slice, slice_bounds. cbn [Z.to_nat drop].
  assert (Ha : 0 ≤ adjust_index (len l) j ≤ len l).
  { unfold adjust_index. pose proof (len_nonneg l).
    destruct (Z.ltb_spec j 0); lia. }
  set (a := Z.to_nat (adjust_index (len l) j)).
  rewrite Nat.sub_0_r, (take_ge (drop a l)).
  - apply take_drop.
  - rewrite length_drop. unfold len in *. lia.
Qed.

Section VocoderSplitAll.
Context {F : Type}.
Variable hp : HParams.
Variable seed : Z → rng.

(** X6: whatever [voc_test_samples] is, the split loses no id and invents
    none: the train ids followed by the test ids are the shuffled ids, a
    permutation of the corpus ids; the two sizes add up to the corpus size,
    and with unique corpus ids no id is in both. *)
Theorem vocoder_split_partitions_the_corpus (dataset : list (string * Z)) :
  let train_ids := (vocoder_split hp seed dataset).1 in
  let test_ids := (vocoder_split hp seed dataset).2 in
  train_ids ++ test_ids = shuffled_ids seed dataset
  ∧ train_ids ++ test_ids ≡ₚ fst <$> dataset
  ∧ len train_ids + len test_ids = len dataset
  ∧ (NoDup (fst <$> dataset) → ∀ id, id ∈ train_ids → id ∉ test_ids).
Proof.
  cbn zeta. rewrite vocoder_split_eq. cbn [fst snd].
  rewrite py_slice_partition.
  assert (Hperm : shuffled_ids seed dataset ≡ₚ fst <$> dataset)
    by apply shuffle_Permutation.
  split_and!; [done | done | |].
  - rewrite <- len_app, py_slice_partition. unfold len.
    by rewrite Hperm, length_fmap.
  - intros Hnodup. rewrite <- Hperm, <- (py_slice_partition _
      (- voc_test_samples hp)) in Hnodup.
    apply NoDup_app in Hnodup as (_ & Hdisj & _). exact Hdisj.
Qed.

(** X7: a held-out count of at least the corpus size holds out the whole
    corpus and leaves nothing to train on. *)
Theorem vocoder_split_oversized_count (dataset : list (string * Z)) :
  len dataset ≤ voc_test_samples hp →
  vocoder_split hp seed dataset = ([], shuffled_ids seed dataset).
Proof.
  intros Hk. rewrite vocoder_split_eq.
  assert (Hlen : len (shuffled_ids seed dataset) = len dataset)
    by (unfold len; by rewrite shuffled_ids_length).
  assert (Ha : adjust_index (len (shuffled_ids seed dataset))
                 (- voc_test_samples hp) = 0).
  { unfold adjust_index. pose proof (len_nonneg dataset).
    destruct (Z.ltb_spec (- voc_test_samples hp) 0); lia. }
  f_equal.
  - unfold py_slice, slice_bounds. by rewrite Ha.
  - rewrite <- (py_slice_partition (shuffled_ids seed dataset)
      (- voc_test_samples hp)) at 2.
    unfold py_slice at 2, slice_bounds. by rewrite Ha.
Qed.
End VocoderSplitAll.

(** [l[i]]: the element at [i mod len(l)] for [-len(l) <= i < len(l)],
    [IndexError] otherwise. *)
Lemma py_index_spec {A} (l : list A) (i : Z) :
  match py_index l i with
  | Ok a => - len l ≤ i < len l ∧ l !! Z.to_nat (i `mod` len l) = Some a
  | Raise e => e = IndexError ∧ (i < - len l ∨ len l ≤ i)
  end.
Proof.
  unfold py_index. pose proof (len_nonneg l) as Hn.
  destruct (Z.ltb_spec i 0) as [Hi|Hi].
  - destruct (Z.ltb_spec (i + len l) 0) as [Hlo|Hlo]; cbn [orb].
    { split; [done | lia]. }
    destruct (Z.leb_spec (len l) (i + len l)) as [Hhi|Hhi]; [lia|].
    replace (i `mod` len l) with (i + len l)
      by (apply (Z.mod_unique_pos _ _ (-1)); lia).
    destruct (l !! Z.to_nat (i + len l)) as [a|] eqn:Ha; [split; [lia | done]|].
    apply lookup_ge_None in Ha. unfold len in *. lia.
  - destruct (Z.ltb_spec i 0) as [?|_]; [lia|]. cbn [orb].
    destruct (Z.leb_spec (len l) i) as [Hhi|Hhi]; [split; [done | lia]|].
    rewrite Z.mod_small by lia.
    destruct (l !! Z.to_nat i) as [a|] eqn:Ha; [split; [lia | done]|].
    apply lookup_ge_None in Ha. unfold len in *. lia.
Qed.

Section DatasetAccess.
Context {F : Type}.

(** X8: [VocoderDataset.__getitem__] returns a pair exactly when the index
    is in [-len, len) and both the mel and the quantised waveform of the id
    at that position (counting negative indices from the end) are stored,
    and then returns those two arrays; an index outside that range raises
    [IndexError]. *)
Theorem VocoderDataset_getitem_spec
    (st : storage F) (self : VocoderDataset) (index : Z) :
  let n := VocoderDataset_len self in
  (∀ m x,
     VocoderDataset_getitem st self index = Ok (m, x) ↔
     ∃ file, - n ≤ index < n
             ∧ voc_metadata self !! Z.to_nat (index `mod` n) = Some file
             ∧ mel_dir st !! file = Some m
             ∧ quant_dir st !! file = Some x)
  ∧ (index < - n ∨ n ≤ index →
     VocoderDataset_getitem st self index = Raise IndexError).
Proof.
  cbn zeta. unfold VocoderDataset_getitem, VocoderDataset_len.
  pose proof (py_index_spec (voc_metadata self) index) as Hidx.
  destruct (py_index (voc_metadata self) index) as [file|e]; cbn [bind].
  - destruct Hidx as [Hrange Hfile]. split; [|lia].
    intros m x. unfold load.
    destruct (mel_dir st !! file) as [m'|] eqn:Hm; cbn [bind];
      [destruct (quant_dir st !! file) as [x'|] eqn:Hx; cbn [bind]|].
    + split.
      * intros [= <- <-]. by exists file.
      * intros (file' & _ & Hfile' & Hm' & Hx'). congruence.
    + split; [done|]. intros (file' & _ & Hfile' & Hm' & Hx'). congruence.
    + split; [done|]. intros (file' & _ & Hfile' & Hm' & Hx'). congruence.
  - destruct Hidx as [-> Hrange]. split; [|done].
    intros m x. split; [done|]. intros (file & ? & _). lia.
Qed.
End DatasetAccess.

Section TTSAccess.
Context `{Dtype}.
Variable hp : HParams.
Variable text_to_sequence : string → list string → list Z.

(** X9: [TTSDataset.__getitem__] returns a pair exactly when the index is in
    [-len, len), the id at that position has a text and its mel is stored;
    the pair is the encoded text and that mel.  The text is looked up
    first: an id with a text but no stored mel raises [FileNotFoundError]. *)
Theorem TTSDataset_getitem_spec
    (st : storage scalar) (self : TTSDataset) (index : Z) :
  let n := TTSDataset_len self in
  (∀ x mel,
     TTSDataset_getitem hp text_to_sequence st self index = Ok (x, mel) ↔
     ∃ id text, - n ≤ index < n
                ∧ metadata self !! Z.to_nat (index `mod` n) = Some id
                ∧ text_dict self !! id = Some text
                ∧ x = text_to_sequence text (tts_cleaner_names hp)
                ∧ mel_dir st !! id = Some mel)
  ∧ (∀ id text,
       py_index (metadata self) index = Ok id →
       text_dict self !! id = Some text →
       mel_dir st !! id = None →
       TTSDataset_getitem hp text_to_sequence st self index
         = Raise FileNotFoundError)
  ∧ (index < - n ∨ n ≤ index →
     TTSDataset_getitem hp text_to_sequence st self index = Raise IndexError).
Proof.
  cbn zeta. unfold TTSDataset_getitem, TTSDataset_len.
  pose proof (py_index_spec (metadata self) index) as Hidx.
  destruct (py_index (metadata self) index) as [id|e]; cbn [bind].
  - destruct Hidx as [Hrange Hid]. split_and!; [| |lia].
    + intros x mel. unfold dict_get, load.
      destruct (text_dict self !! id) as [text|] eqn:Ht; cbn [bind];
        [destruct (mel_dir st !! id) as [mel'|] eqn:Hm; cbn [bind]|].
      * split.
        -- intros [= <- <-]. by exists id, text.
        -- intros (id' & text' & _ & Hid' & Ht' & -> & Hm'). congruence.
      * split; [done|].
        intros (id' & text' & _ & Hid' & Ht' & _ & Hm'). congruence.
      * split; [done|].
        intros (id' & text' & _ & Hid' & Ht' & _). congruence.
    + intros id' text [= <-] Ht Hm. unfold dict_get, load.
      by rewrite Ht, Hm.
  - destruct Hidx as [-> Hrange]. split_and!; [|done|done].
    intros x mel. split; [done|]. intros (id & text & ? & _). lia.
Qed.
End TTSAccess.

(** * Further properties of the collators *)

(** X10: [pad1d] never truncates: a target shorter than the sequence raises
    [ValueError]; otherwise the result has the target length, begins with
    the sequence and continues with zeros, and padding to the sequence's own
    length changes nothing. *)
Theorem pad1d_pads_or_raises (x : list Z) (max_len : Z) :
  (max_len < len x → pad1d x max_len = Raise ValueError)
  ∧ (len x ≤ max_len →
     ∃ y, pad1d x max_len = Ok y
          ∧ len y = max_len
          ∧ take (length x) y = x
          ∧ drop (length x) y = replicate (Z.to_nat (max_len - len x)) 0)
  ∧ pad1d x (len x) = Ok x.
Proof.
  unfold pad1d. split_and!.
  - intros Hlt.
    by replace (max_len - len x <? 0) with true
      by (symmetry; apply Z.ltb_lt; lia).
  - intros Hle.
    replace (max_len - len x <? 0) with false
      by (symmetry; apply Z.ltb_ge; lia).
    eexists. split; [done|]. split_and!.
    + unfold len in *. rewrite length_app, length_replicate. lia.
    + by rewrite take_app_length.
    + by rewrite drop_app_length.
  - rewrite Z.sub_diag. cbn. by rewrite app_nil_r.
Qed.

Lemma np_stack2_inv {A} (xs ys : list (array2 A)) :
  np_stack2 xs = Ok ys →
  ys = xs ∧ xs ≠ []
  ∧ ∃ r c, Forall (fun m => n_rows m = r ∧ n_cols m = c) xs.
Proof.
  destruct xs as [|x xs]; [done|]. cbn [np_stack2].
  destruct (forallb (same_shape x) xs) eqn:Hall; [|done].
  intros [= <-]. split; [done|]. split; [done|].
  exists (n_rows x), (n_cols x). constructor; [done|].
  apply Forall_forall. intros y Hy%list_elem_of_In.
  rewrite forallb_forall in Hall. specialize (Hall y Hy).
  unfold same_shape in Hall. apply andb_true_iff in Hall as [Hr Hc].
  by apply Nat.eqb_eq in Hr as <-, Hc as <-.
Qed.

Lemma np_stack1_inv {A} (xs ys : list (list A)) :
  np_stack1 xs = Ok ys →
  ys = xs ∧ xs ≠ [] ∧ ∃ n, Forall (fun y => length y = n) xs.
Proof.
  destruct xs as [|x xs]; [done|]. cbn [np_stack1].
  destruct (forallb _ xs) eqn:Hall; [|done].
  intros [= <-]. split; [done|]. split; [done|].
  exists (length x). constructor; [done|].
  apply Forall_forall. intros y Hy%list_elem_of_In.
  rewrite forallb_forall in Hall. specialize (Hall y Hy).
  by apply Nat.eqb_eq in Hall.
Qed.

Lemma np_stack2_mismatch {A} (xs : list (array2 A)) (x y : array2 A) :
  x ∈ xs → y ∈ xs → n_rows x ≠ n_rows y →
  np_stack2 xs = Raise ValueError.
Proof.
  intros Hx Hy Hne.
  destruct (np_stack2 xs) as [ys|e] eqn:Hstack.
  - apply np_stack2_inv in Hstack as (_ & _ & r & c & Hall).
    rewrite Forall_forall in Hall.
    destruct (Hall x Hx) as [Hrx _], (Hall y Hy) as [Hry _]. congruence.
  - destruct xs as [|x0 xs]; [by apply elem_of_nil in Hx|].
    cbn [np_stack2] in Hstack. by destruct (forallb _ xs); simplify_eq.
Qed.

Section CollateErrors.
Context `{Dtype}.
Variable hp : HParams.

(** X11: [pad2d] never crops the time axis: a target below the mel's frame
    count raises [ValueError]; otherwise the result keeps the channels, has
    exactly the target number of frames, the mel's own entries in its own
    frames and zero in the frames added. *)
Theorem pad2d_pads_or_raises (x : array2 scalar) (max_len : Z) :
  (max_len < Z.of_nat (n_cols x) → pad2d x max_len = Raise ValueError)
  ∧ (Z.of_nat (n_cols x) ≤ max_len →
     ∃ y, pad2d x max_len = Ok y
          ∧ n_rows y = n_rows x
          ∧ Z.of_nat (n_cols y) = max_len
          ∧ ∀ c t, cell y c t =
                     if (t <? n_cols x)%nat then cell x c t else of_int 0).
Proof.
  unfold pad2d. split.
  - intros Hlt.
    by replace (max_len - Z.of_nat (n_cols x) <? 0) with true
      by (symmetry; apply Z.ltb_lt; lia).
  - intros Hle.
    replace (max_len - Z.of_nat (n_cols x) <? 0) with false
      by (symmetry; apply Z.ltb_ge; lia).
    eexists. split; [done|]. cbn. split_and!; [done | lia | done].
Qed.

(** [collate_tts] on a non-empty batch, up to the remainder by [tts_r]: the
    tokens are padded and stacked without an exception. *)
Lemma collate_tts_upto_mod (batch : list (list Z * array2 scalar)) :
  batch ≠ [] →
  ∃ max_x max_m,
    is_max max_m ((fun x => Z.of_nat (n_cols x.2)) <$> batch)
    ∧ collate_tts hp batch =
        let chars :=
          (fun x => x.1 ++ replicate (Z.to_nat (max_x - len x.1)) 0) <$> batch in
        let* rem := py_mod (max_m + 1) (tts_r hp) in
        let max_spec_len :=
          if negb (rem =? 0) then max_m + 1 + (tts_r hp - rem) else max_m + 1 in
        let* mel := mapM (fun x => pad2d x.2 max_spec_len) batch in
        let* mel := np_stack2 mel in
        Ok (chars, array2_map rescale <$> mel).
Proof.
  intros Hne. unfold collate_tts.
  destruct (py_max_is_max ((fun x => len x.1) <$> batch))
    as (max_x & -> & Hmax_x); [by destruct batch|].
  destruct (py_max_is_max ((fun x => Z.of_nat (n_cols x.2)) <$> batch))
    as (max_m & -> & Hmax_m); [by destruct batch|].
  exists max_x, max_m. split; [done|]. cbn [bind].
  destruct Hmax_x as [_ Hle_x]. rewrite Forall_fmap in Hle_x.
  rewrite (mapM_Ok _
    (fun x => x.1 ++ replicate (Z.to_nat (max_x - len x.1)) 0)); cycle 1.
  { eapply Forall_impl; [exact Hle_x|]. intros x Hx. cbn in Hx |- *.
    unfold pad1d.
    by replace (max_x - len x.1 <? 0) with false
      by (symmetry; apply Z.ltb_ge; lia). }
  cbn [bind]. rewrite np_stack1_Ok; [done | by destruct batch |].
  intros r1 r2 (x1 & -> & Hx1)%list_elem_of_fmap
    (x2 & -> & Hx2)%list_elem_of_fmap.
  rewrite Forall_forall in Hle_x.
  pose proof (Hle_x x1 Hx1) as H1. pose proof (Hle_x x2 Hx2) as H2.
  cbn in H1, H2. unfold len in *.
  rewrite !length_app, !length_replicate. lia.
Qed.

(** X12: with [tts_r = 0], [collate_tts] raises [ZeroDivisionError] on
    every non-empty batch. *)
Theorem collate_tts_zero_reduction_factor
    (batch : list (list Z * array2 scalar)) :
  batch ≠ [] → tts_r hp = 0 →
  collate_tts hp batch = Raise ZeroDivisionError.
Proof.
  intros Hne Hr.
  destruct (collate_tts_upto_mod batch Hne) as (max_x & max_m & _ & ->).
  cbn zeta. unfold py_mod. by rewrite Hr.
Qed.

(** X13: with [tts_r > 0], [collate_tts] raises [ValueError] on the empty
    batch and on every batch in which two mels differ in their number of
    channels. *)
Theorem collate_tts_rejects_empty_and_ragged
    (batch : list (list Z * array2 scalar)) :
  0 < tts_r hp →
  batch = [] ∨ (∃ x y, x ∈ batch ∧ y ∈ batch ∧ n_rows x.2 ≠ n_rows y.2) →
  collate_tts hp batch = Raise ValueError.
Proof.
  intros Hr [->|(x & y & Hx & Hy & Hne)]; [done|].
  assert (Hbatch : batch ≠ []) by (intros ->; by apply elem_of_nil in Hx).
  destruct (collate_tts_upto_mod batch Hbatch)
    as (max_x & max_m & [_ Hle] & ->).
  cbn zeta. unfold py_mod.
  replace (tts_r hp =? 0) with false by (symmetry; apply Z.eqb_neq; lia).
  cbn [bind].
  set (w := if negb _ then _ else _).
  assert (Hw : max_m + 1 ≤ w).
  { unfold w. pose proof (Z.mod_pos_bound (max_m + 1) (tts_r hp) Hr).
    destruct (negb _); lia. }
  rewrite Forall_fmap in Hle.
  rewrite (mapM_Ok _ (fun x =>
    Array2 (n_rows x.2) (n_cols x.2 + Z.to_nat (w - Z.of_nat (n_cols x.2)))
      (fun c t => if (t <? n_cols x.2)%nat then cell x.2 c t else of_int 0)));
    cycle 1.
  { eapply Forall_impl; [exact Hle|]. intros z Hz. cbn in Hz |- *.
    unfold pad2d.
    by replace (w - Z.of_nat (n_cols z.2) <? 0) with false
      by (symmetry; apply Z.ltb_ge; lia). }
  cbn [bind].
  erewrite np_stack2_mismatch; [done | | |].
  - apply list_elem_of_fmap. exists x. split; [reflexivity | exact Hx].
  - apply list_elem_of_fmap. exists y. split; [reflexivity | exact Hy].
  - exact Hne.
Qed.
End CollateErrors.

Lemma draw_offsets_length ms g os g' :
  draw_offsets ms g = (Ok os, g') → length os = length ms.
Proof.
  revert g os g'. induction ms as [|m ms IH]; intros g os g'.
  - by intros [= <- _].
  - cbn [draw_offsets]. destruct (randint 0 m g) as [[o|e] g1]; [|done].
    destruct (draw_offsets ms g1) as [[os'|e] g2] eqn:Hrest; [|done].
    intros [= <- _]. cbn. f_equal. by eapply IH.
Qed.

(** The crop of a waveform that feeds the model, without its first sample,
    is the target without its last sample, decoded. *)
Lemma next_step_shift {B} (f : Z → B) (w : list Z) (n : Z) :
  0 < n →
  drop 1 (f <$> py_slice w None (Some n))
    = f <$> take (Z.to_nat (n - 1)) (py_slice w (Some 1) None).
Proof.
  intros Hn. destruct w as [|a w].
  { unfold py_slice.
    destruct (slice_bounds _ None _) as [a b], (slice_bounds _ _ None) as [a' b'].
    by rewrite !drop_nil, !take_nil. }
  rewrite py_slice_suffix by (unfold len; cbn; lia).
  change (drop (Z.to_nat 1) (a :: w)) with w.
  unfold py_slice, slice_bounds, adjust_index.
  replace (n <? 0) with false by (symmetry; apply Z.ltb_ge; lia).
  change (Z.to_nat 0) with 0%nat. rewrite drop_0, Nat.sub_0_r.
  destruct (Z.to_nat (Z.min n (len (a :: w)))) as [|k] eqn:Hk.
  { unfold len in Hk. cbn in Hk. lia. }
  change (take (S k) (a :: w)) with (a :: take k w).
  rewrite fmap_cons. change (drop 1 (f a :: (f <$> take k w)))
    with (f <$> take k w).
  f_equal. apply list_eq. intros p. rewrite !lookup_take.
  unfold len in Hk. cbn [length] in Hk.
  repeat case_decide; try done; try lia.
  symmetry. apply lookup_ge_None_2. lia.
Qed.

Section CollateVocoderOutput.
Context {F F32 : Type}.
Variable hp : HParams.
Variable astype_float32 : F → F32.
Variable label_2_float : Z → Z → F32.

(** X14: every batch [collate_vocoder] returns comes from a non-empty input
    and has one row of [x], of [y] and of [mels] for each example; the rows
    of [y] have one length and the mels one shape; and, when
    [voc_seq_len > 0], the input after its first sample is the decoded
    target before its last: the target is the input one step ahead. *)
Theorem collate_vocoder_returns_aligned_rows
    (batch : list (array2 F * list Z)) (g g' : rng) xs ys ms :
  collate_vocoder hp astype_float32 label_2_float batch g
    = (Ok (xs, ys, ms), g') →
  batch ≠ []
  ∧ length xs = length batch
  ∧ length ys = length batch
  ∧ length ms = length batch
  ∧ (∃ n, Forall (fun y => length y = n) ys)
  ∧ (∃ r c, Forall (fun m => n_rows m = r ∧ n_cols m = c) ms)
  ∧ (0 < voc_seq_len hp →
     Forall2
       (fun x y =>
          drop 1 x = (fun code => label_2_float code (bits hp)) <$>
                       take (Z.to_nat (voc_seq_len hp - 1)) y)
       xs ys).
Proof.
  unfold collate_vocoder, collate_vocoder_crops.
  destruct (py_floordiv _ _) as [q|e]; [|done].
  destruct (draw_offsets _ g) as [[os|e] g1] eqn:Hdraw; [|done].
  apply draw_offsets_length in Hdraw. rewrite length_fmap in Hdraw.
  cbn [mels labels].
  set (crops := zip_with _ os batch).
  set (ws := zip_with _ (_ <$> os) batch).
  assert (Hcrops : length crops = length batch)
    by (unfold crops; rewrite length_zip_with; lia).
  assert (Hws : length ws = length batch)
    by (unfold ws; rewrite length_zip_with, length_fmap; lia).
  destruct (np_stack2 crops) as [ms'|e] eqn:Hms; [|done]. cbn [bind].
  destruct (np_stack1 ws) as [ws'|e] eqn:Hlabels; [|done]. cbn [bind].
  apply np_stack2_inv in Hms as (-> & Hne & r & c & Hshape).
  apply np_stack1_inv in Hlabels as (-> & _ & n & Hlen).
  intros [= <- <- <- <-]. rewrite !length_fmap.
  split_and!; try done.
  - intros ->. by destruct crops.
  - exists (n - 1)%nat. apply Forall_fmap.
    eapply Forall_impl; [exact Hlen|]. intros w Hw. cbn beta in Hw. cbn.
    unfold py_slice, slice_bounds, adjust_index, len. cbn [Z.ltb Z.compare].
    rewrite length_take, length_drop, Hw. lia.
  - exists r, c. apply Forall_fmap.
    eapply Forall_impl; [exact Hshape|]. by intros m [? ?].
  - intros Hseq. apply Forall2_fmap, Forall_Forall2_diag, Forall_forall.
    intros w _. by apply next_step_shift.
Qed.

(** X15: what the crops hold.  Under the conditions of the vocoder batch
    (configuration in its domain, every mel long enough, every waveform of
    [T_m * hop_length] samples), the crop of example [i] at the drawn offset
    [o] is the mel's frames [o, o + mel_win) — lying within the mel — and
    the [voc_seq_len + 1] samples of the waveform from
    [(o + voc_pad) * hop_length] on — lying within the waveform. *)
Theorem collate_vocoder_crops_are_windows
    (batch : list (array2 F * list Z)) (g : rng) :
  0 < hop_length hp → 0 ≤ voc_pad hp → 0 ≤ voc_seq_len hp →
  let window := voc_seq_len hp / hop_length hp + 2 * voc_pad hp in
  Forall (fun x => window + 2 * voc_pad hp < Z.of_nat (n_cols x.1)
                   ∧ len x.2 = Z.of_nat (n_cols x.1) * hop_length hp) batch →
  ∃ c g',
    collate_vocoder_crops hp batch g = (Ok c, g')
    ∧ length (mel_offsets c) = length batch
    ∧ ∀ i o x,
        mel_offsets c !! i = Some o →
        batch !! i = Some x →
        let s := (o + voc_pad hp) * hop_length hp in
        0 ≤ o ∧ o + window ≤ Z.of_nat (n_cols x.1)
        ∧ 0 ≤ s ∧ s + voc_seq_len hp + 1 ≤ len x.2
        ∧ sig_offsets c !! i = Some s
        ∧ (∃ m, mels c !! i = Some m
                ∧ ∀ ch t, cell m ch t = cell x.1 ch (Z.to_nat o + t)%nat)
        ∧ labels c !! i
          = Some (take (Z.to_nat (voc_seq_len hp + 1)) (drop (Z.to_nat s) x.2)).
Proof.
  intros Hhop Hpad Hseq window Hbatch.
  apply Forall_and in Hbatch as [Hlong Haligned].
  unfold collate_vocoder_crops, py_floordiv.
  replace (hop_length hp =? 0) with false by (symmetry; apply Z.eqb_neq; lia).
  fold window.
  match goal with |- context [draw_offsets ?ms g] =>
    destruct (draw_offsets_in_range ms g) as (os & g' & Hdraw & Hos) end.
  { apply Forall_fmap. eapply Forall_impl; [exact Hlong|].
    intros x Hx. cbn beta in Hx. cbn. lia. }
  rewrite Hdraw. apply draw_offsets_length in Hdraw.
  rewrite length_fmap in Hdraw. apply Forall2_fmap_r in Hos.
  eexists _, g'. split; [reflexivity|].
  cbn [mel_offsets sig_offsets mels labels]. split; [done|].
  intros i o x Ho Hx. cbn zeta.
  pose proof (Forall2_lookup_lr _ _ _ _ _ _ Hos Ho Hx) as Hrange.
  pose proof (Forall_lookup_1 _ _ _ _ Haligned Hx) as Hlen.
  unfold compose in Hrange. cbn beta in Hrange, Hlen.
  assert (Hq : 0 ≤ voc_seq_len hp / hop_length hp) by (apply Z.div_pos; lia).
  pose proof (Z.mul_div_le (voc_seq_len hp) (hop_length hp) Hhop) as Hq1.
  pose proof (Z.mul_succ_div_gt (voc_seq_len hp) (hop_length hp) Hhop) as Hq2.
  assert (Ho0 : 0 ≤ o) by lia.
  assert (Hs : 0 ≤ (o + voc_pad hp) * hop_length hp)
    by (apply Z.mul_nonneg_nonneg; lia).
  assert (Hend : (o + voc_pad hp) * hop_length hp + voc_seq_len hp + 1
                 ≤ len x.2) by (rewrite Hlen; subst window; nia).
  split_and!; [lia | subst window; lia | done | done | | |].
  - by rewrite list_lookup_fmap, Ho.
  - rewrite lookup_zip_with, Ho, Hx. cbn [mbind option_bind].
    eexists. split; [reflexivity|].
    intros ch t. unfold slice_cols.
    rewrite slice_bounds_in_range by (subst window; lia). done.
  - rewrite lookup_zip_with, list_lookup_fmap, Ho, Hx.
    cbn [mbind option_bind fmap option_fmap option_map]. f_equal.
    rewrite py_slice_in_range by lia. do 2 f_equal. lia.
Qed.
End CollateVocoderOutput.

(** * Further properties of the TTS loader *)

Lemma iter_output_subset (s : BinnedLengthSampler) (g : rng) out :
  (BinnedLengthSampler_iter s g).1.1 = Ok out → ∀ i, i ∈ out → i ∈ idx s.
Proof.
  intros Hr i Hi.
  destruct (iter_spec s g) as (_ & _ & _ & _ & Hout). cbn zeta in Hout.
  rewrite Hr in Hout.
  destruct Hout as (_ & _ & order & blocks & _ & Hblocks & ->).
  apply list_elem_of_In, in_concat in Hi as (blk & Hblk & Hi).
  apply list_elem_of_In, list_elem_of_lookup in Hblk as [p Hp].
  destruct (Forall2_lookup_r _ _ _ _ _ Hblocks Hp) as (k & _ & _ & Hperm).
  apply list_elem_of_In in Hi. rewrite Hperm in Hi. unfold chunk in Hi.
  by apply subseteq_take, subseteq_drop in Hi.
Qed.

Section TTSLoader.
Context `{Dtype}.
Variable hp : HParams.

(** X16: the exceptions of [get_tts_dataset]: a missing [dataset.pkl] or
    [text_dict.pkl] raises [FileNotFoundError]; with both present and
    [tts_bin_lengths] set, a batch size of zero raises [ZeroDivisionError]
    and a batch size that does not divide the bin size 512 raises
    [AssertionError]. *)
Theorem get_tts_dataset_exceptions (st : storage scalar) (batch_size : Z) :
  (dataset_pkl st = None ∨ text_dict_pkl st = None →
   get_tts_dataset hp st batch_size = Raise FileNotFoundError)
  ∧ (is_Some (dataset_pkl st) → is_Some (text_dict_pkl st) →
     tts_bin_lengths hp = true →
     (batch_size = 0 →
      get_tts_dataset hp st batch_size = Raise ZeroDivisionError)
     ∧ (batch_size ≠ 0 → 512 `mod` batch_size ≠ 0 →
        get_tts_dataset hp st batch_size = Raise AssertionError)).
Proof.
  unfold get_tts_dataset. split.
  - intros [Hd|Ht].
    + by rewrite Hd.
    + destruct (dataset_pkl st) as [dataset|]; [|done]. cbn [load bind].
      destruct (tts_index hp dataset [] []). by rewrite Ht.
  - intros [dataset ->] [td ->] ->. cbn [load bind].
    destruct (tts_index hp dataset [] []) as [ids lens]. cbn [load bind].
    unfold BinnedLengthSampler_init, py_mod. cbn [Z.eqb]. split.
    + by intros ->.
    + intros Hb Hmod.
      replace (batch_size =? 0) with false by (symmetry; by apply Z.eqb_neq).
      cbn [bind].
      by replace (512 `mod` batch_size =? 0) with false
        by (symmetry; by apply Z.eqb_neq).
Qed.

Lemma get_tts_dataset_sampler
    (st : storage scalar) batch_size dl dataset s0 :
  dataset_pkl st = Some dataset →
  get_tts_dataset hp st batch_size = Ok dl →
  dl_sampler dl = Some s0 →
  BinnedLengthSampler_init (filter (kept hp) dataset).*2 batch_size (Some 512)
    = Ok s0
  ∧ metadata (dl_dataset dl) = (filter (kept hp) dataset).*1.
Proof.
  intros Hst. unfold get_tts_dataset. rewrite Hst. cbn [load bind].
  rewrite tts_index_filter.
  destruct (text_dict_pkl st) as [td|]; [|done]. cbn [load bind].
  destruct (tts_bin_lengths hp).
  - destruct (BinnedLengthSampler_init _ _ _) as [s|e]; [|done]. cbn [bind].
    intros [= <-]. cbn. by intros [= ->].
  - cbn [bind]. by intros [= <-].
Qed.

(** X17: the sampler and the dataset of a TTS loader fit together: the
    sampler's [__len__] is the dataset's, and every index that any call of
    the sampler's [__iter__] yields is a position of a kept record, whose id
    [self.metadata[index]] finds without [IndexError]. *)
Theorem tts_sampler_yields_dataset_positions
    (st : storage scalar) batch_size dl dataset s0 s g out :
  dataset_pkl st = Some dataset →
  get_tts_dataset hp st batch_size = Ok dl →
  dl_sampler dl = Some s0 →
  iterated s0 s →
  (BinnedLengthSampler_iter s g).1.1 = Ok out →
  BinnedLengthSampler_len s = TTSDataset_len (dl_dataset dl)
  ∧ ∀ i, i ∈ out →
      ∃ id n,
        filter (fun r => r.2 ≤ tts_max_input_len hp) dataset !! i = Some (id, n)
        ∧ py_index (metadata (dl_dataset dl)) (Z.of_nat i) = Ok id.
Proof.
  intros Hst Hget Hs Hiter Hr.
  destruct (get_tts_dataset_sampler _ _ _ _ _ Hst Hget Hs) as [Hinit Hmeta].
  apply init_Ok in Hinit as (Hidx & _).
  pose proof (iterated_idx_Permutation s0 s Hiter) as Hperm.
  rewrite Hidx, argsort_Permutation, length_fmap in Hperm.
  split.
  - unfold BinnedLengthSampler_len, TTSDataset_len, len.
    by rewrite Hperm, Hmeta, length_seq, length_fmap.
  - intros i Hi. apply (iter_output_subset s g out Hr) in Hi.
    rewrite Hperm in Hi. apply elem_of_seq in Hi as [_ Hi]. cbn in Hi.
    destruct (lookup_lt_is_Some_2 (filter (kept hp) dataset) i Hi)
      as [[id n] Hrec].
    exists id, n. split; [exact Hrec|].
    pose proof (py_index_spec (metadata (dl_dataset dl)) (Z.of_nat i)) as Hpy.
    assert (Hlen : len (metadata (dl_dataset dl))
                   = Z.of_nat (length (filter (kept hp) dataset)))
      by (unfold len; by rewrite Hmeta, length_fmap).
    destruct (py_index _ _) as [id'|e].
    + destruct Hpy as [_ Hid']. rewrite Z.mod_small, Nat2Z.id in Hid' by lia.
      rewrite Hmeta, list_lookup_fmap, Hrec in Hid'. by simplify_eq/=.
    + destruct Hpy as [_ Hout]. lia.
Qed.

(** X18: with [tts_bin_lengths] set, a corpus that keeps fewer than 512
    records gets a sampler that cannot be iterated: every call of its
    [__iter__] raises [ValueError]. *)
Theorem tts_sampler_needs_a_full_bin
    (st : storage scalar) batch_size dl dataset s0 s g :
  dataset_pkl st = Some dataset →
  get_tts_dataset hp st batch_size = Ok dl →
  dl_sampler dl = Some s0 →
  iterated s0 s →
  TTSDataset_len (dl_dataset dl) < 512 →
  BinnedLengthSampler_iter s g = (Raise ValueError, s, g).
Proof.
  intros Hst Hget Hs Hiter Hsmall.
  destruct (get_tts_dataset_sampler _ _ _ _ _ Hst Hget Hs) as [Hinit Hmeta].
  destruct (init_bin_size _ _ _ _ Hinit) as [Hnz Hbin0]. cbn in Hbin0.
  apply init_Ok in Hinit as (Hidx & _).
  pose proof (iterated_n_bins s0 s Hiter) as Hnb.
  destruct (iterated_inv s0 s Hiter) as (_ & Hbin & _).
  apply iter_raises_without_bins; [congruence|].
  rewrite Hnb. unfold n_bins, len. rewrite Hbin0, Hidx.
  rewrite argsort_Permutation, length_seq, length_fmap.
  unfold TTSDataset_len, len in Hsmall.
  rewrite Hmeta, length_fmap in Hsmall.
  rewrite Z.div_small by lia. done.
Qed.
End TTSLoader.

(** * Instances of the further properties at concrete inputs *)

Lemma init_default_bins_and_sorted_idx_witness :
  BinnedLengthSampler_init [5; 4; 3; 2; 1] 2 None
    = Ok (Sampler (argsort [5; 4; 3; 2; 1]) 2 8)
  ∧ idx (Sampler (argsort [5; 4; 3; 2; 1]) 2 8) ≡ₚ seq 0 5
  ∧ Sorted (length_le [5; 4; 3; 2; 1]) (argsort [5; 4; 3; 2; 1]).
Proof.
  destruct (init_default_bins_and_sorted_idx [5; 4; 3; 2; 1] 2 None)
    as [Hdefault Hsorted].
  specialize (Hdefault ltac:(discriminate) ltac:(by left)).
  destruct (Hsorted _ Hdefault) as (Hperm & Hsort & _).
  by split_and!.
Defined.

Lemma iter_keeps_idx_a_permutation_witness :
  let s0 := Sampler (argsort [5; 4; 3; 2; 1]) 2 4 in
  let s1 := (BinnedLengthSampler_iter s0 [3; 1; 4]%nat).1.2 in
  idx s1 ≡ₚ seq 0 5 ∧ BinnedLengthSampler_len s1 = 5.
Proof.
  cbn zeta.
  destruct (iter_keeps_idx_a_permutation [5; 4; 3; 2; 1] 2 (Some 4)
              (Sampler (argsort [5; 4; 3; 2; 1]) 2 4)
              (BinnedLengthSampler_iter
                 (Sampler (argsort [5; 4; 3; 2; 1]) 2 4) [3; 1; 4]%nat).1.2)
    as (Hperm & Hlen & _).
  - reflexivity.
  - apply iterated_S, iterated_0.
  - by split.
Defined.

Lemma iter_raises_when_no_bin_fills_witness :
  BinnedLengthSampler_iter (Sampler (argsort [3; 1; 2]) 2 4) [3; 1; 4]%nat
    = (Raise ValueError, Sampler (argsort [3; 1; 2]) 2 4, [3; 1; 4]%nat).
Proof.
  apply (iter_raises_when_no_bin_fills [3; 1; 2] 2 (Some 4)
           (Sampler (argsort [3; 1; 2]) 2 4)).
  - reflexivity.
  - apply iterated_0.
  - left. reflexivity.
Defined.


Lemma iter_batches_stay_within_a_bin_witness :
  let s0 := Sampler (argsort [5; 4; 3; 2; 1; 9; 8; 7; 6]) 2 4 in
  match (BinnedLengthSampler_iter s0 [3; 1; 4; 1; 5; 9; 2; 6]%nat).1.1 with
  | Ok out =>
      length out = 8%nat
      ∧ ∃ k, (k < n_bins s0)%nat
             ∧ ∀ i, i ∈ take 2 (drop (3 * 2) out) →
                    i ∈ take 4 (drop (k * 4) (idx s0))
  | Raise e => False
  end.
Proof.
  cbn zeta.
  destruct (BinnedLengthSampler_iter _ _).1.1 as [out|e] eqn:Hr.
  - pose proof Hr as Hout. vm_compute in Hout. injection Hout as <-.
    split; [reflexivity|].
    apply (iter_batches_stay_within_a_bin
             [5; 4; 3; 2; 1; 9; 8; 7; 6] 2 (Some 4) _ _ _ _ 3 eq_refl
             (iterated_0 _) eq_refl Hr).
    vm_compute. lia.
  - vm_compute in Hr. discriminate Hr.
Defined.

Lemma vocoder_split_partitions_the_corpus_witness :
  let train_ids := (vocoder_split hp_example seed_example corpus_example).1 in
  let test_ids := (vocoder_split hp_example seed_example corpus_example).2 in
  train_ids ++ test_ids ≡ₚ fst <$> corpus_example
  ∧ len train_ids + len test_ids = 5
  ∧ (∀ id, id ∈ train_ids → id ∉ test_ids).
Proof.
  cbn zeta.
  destruct (vocoder_split_partitions_the_corpus hp_example seed_example
              corpus_example) as (_ & Hperm & Hlen & Hdisj).
  split_and!; [exact Hperm | exact Hlen |].
  apply Hdisj. apply (bool_decide_unpack _). vm_compute. exact I.
Defined.

Lemma vocoder_split_oversized_count_witness :
  vocoder_split hp_example seed_example [("a"%string, 2); ("b"%string, 7)]
    = ([], shuffled_ids seed_example [("a"%string, 2); ("b"%string, 7)]).
Proof.
  apply (vocoder_split_oversized_count hp_example seed_example).
  vm_compute. discriminate.
Defined.

Lemma VocoderDataset_getitem_spec_witness :
  VocoderDataset_getitem storage_files
    {| voc_metadata := ["b"; "a"]%string |} (-1)
    = Ok (mel_example 4, [1; 2; 3])
  ∧ VocoderDataset_getitem storage_files
      {| voc_metadata := ["b"; "a"]%string |} 2
    = Raise IndexError.
Proof.
  destruct (VocoderDataset_getitem_spec storage_files
              {| voc_metadata := ["b"; "a"]%string |} (-1)) as [Hok _].
  destruct (VocoderDataset_getitem_spec storage_files
              {| voc_metadata := ["b"; "a"]%string |} 2) as [_ Hout].
  split.
  - apply Hok. exists "a"%string.
    split_and!; first [reflexivity | vm_compute; discriminate].
  - apply Hout. right. reflexivity.
Defined.

Lemma TTSDataset_getitem_spec_witness :
  TTSDataset_getitem (H:=binary32) hp_example (fun _ _ => [7; 8])
    storage_files {| metadata := ["b"; "a"]%string;
                     text_dict := {[ "a"%string := "hello"%string ]} |} 1
    = Ok ([7; 8], mel_example 4)
  ∧ TTSDataset_getitem (H:=binary32) hp_example (fun _ _ => [7; 8])
      storage_files {| metadata := ["c"]%string;
                       text_dict := {[ "c"%string := "hello"%string ]} |} 0
    = Raise FileNotFoundError.
Proof.
  destruct (TTSDataset_getitem_spec (H:=binary32) hp_example
              (fun _ _ => [7; 8]) storage_files
              {| metadata := ["b"; "a"]%string;
                 text_dict := {[ "a"%string := "hello"%string ]} |} 1)
    as (Hok & _ & _).
  destruct (TTSDataset_getitem_spec (H:=binary32) hp_example
              (fun _ _ => [7; 8]) storage_files
              {| metadata := ["c"]%string;
                 text_dict := {[ "c"%string := "hello"%string ]} |} 0)
    as (_ & Hmissing & _).
  split.
  - apply Hok. exists "a"%string, "hello"%string.
    split_and!; first [reflexivity | vm_compute; discriminate].
  - apply (Hmissing "c"%string "hello"%string); reflexivity.
Defined.

Lemma pad1d_pads_or_raises_witness :
  pad1d [1; 2; 3] 2 = Raise ValueError
  ∧ ∃ y, pad1d [1; 2; 3] 5 = Ok y ∧ len y = 5 ∧ take 3 y = [1; 2; 3]
         ∧ drop 3 y = [0; 0].
Proof.
  destruct (pad1d_pads_or_raises [1; 2; 3] 2) as (Hshort & _ & _).
  destruct (pad1d_pads_or_raises [1; 2; 3] 5) as (_ & Hlong & _).
  split.
  - apply Hshort. reflexivity.
  - apply Hlong. discriminate.
Defined.

Lemma pad2d_pads_or_raises_witness :
  pad2d (H:=binary32) (mel_example 4) 3 = Raise ValueError
  ∧ ∃ y, pad2d (H:=binary32) (mel_example 4) 6 = Ok y
         ∧ n_rows y = 80%nat
         ∧ Z.of_nat (n_cols y) = 6
         ∧ ∀ c t, cell y c t =
                    if (t <? 4)%nat then cell (mel_example 4) c t
                    else ieee_of_int 24 128 0.
Proof.
  destruct (pad2d_pads_or_raises (H:=binary32) (mel_example 4) 3)
    as (Hshort & _).
  destruct (pad2d_pads_or_raises (H:=binary32) (mel_example 4) 6)
    as (_ & Hlong).
  split.
  - apply Hshort. reflexivity.
  - apply Hlong. discriminate.
Defined.

Lemma collate_tts_zero_reduction_factor_witness :
  collate_tts (H:=binary32) hp_small tts_batch_example
    = Raise ZeroDivisionError.
Proof.
  apply (collate_tts_zero_reduction_factor (H:=binary32) hp_small
           tts_batch_example); [discriminate | reflexivity].
Defined.

Lemma collate_tts_rejects_empty_and_ragged_witness :
  collate_tts (H:=binary32) hp_example tts_batch_ragged = Raise ValueError.
Proof.
  apply (collate_tts_rejects_empty_and_ragged (H:=binary32) hp_example
           tts_batch_ragged); [reflexivity|].
  right. exists ([1; 2], mel_example 3),
    ([3], Array2 40 3 (fun _ _ => ieee_of_int 24 128 1)).
  split_and!; [left | right; left | discriminate].
Defined.

Lemma collate_vocoder_returns_aligned_rows_witness :
  match collate_vocoder hp_small id code_as_float vocoder_batch_small
          [1; 0]%nat with
  | (Ok (xs, ys, ms), _) =>
      length xs = 2%nat ∧ length ys = 2%nat ∧ length ms = 2%nat
      ∧ Forall2
          (fun x y => drop 1 x = (fun code => code_as_float code 9) <$> take 3 y)
          xs ys
  | (Raise _, _) => False
  end.
Proof.
  destruct (collate_vocoder hp_small id code_as_float vocoder_batch_small
              [1; 0]%nat) as [[[[xs ys] ms]|e] g'] eqn:Hc.
  - destruct (collate_vocoder_returns_aligned_rows hp_small id code_as_float
                vocoder_batch_small [1; 0]%nat g' xs ys ms Hc)
      as (_ & Hxs & Hys & Hms & _ & _ & Hshift).
    split_and!; [exact Hxs | exact Hys | exact Hms |].
    apply Hshift. reflexivity.
  - vm_compute in Hc. discriminate Hc.
Defined.

Lemma collate_vocoder_crops_are_windows_witness :
  ∃ c g',
    collate_vocoder_crops hp_example vocoder_batch_example [5; 3]%nat
      = (Ok c, g')
    ∧ length (mel_offsets c) = 2%nat
    ∧ ∀ i o x,
        mel_offsets c !! i = Some o →
        vocoder_batch_example !! i = Some x →
        0 ≤ o ∧ o + 14 ≤ Z.of_nat (n_cols x.1)
        ∧ 0 ≤ (o + 2) * 200 ∧ (o + 2) * 200 + 2000 + 1 ≤ len x.2
        ∧ sig_offsets c !! i = Some ((o + 2) * 200)
        ∧ (∃ m, mels c !! i = Some m
                ∧ ∀ ch t, cell m ch t = cell x.1 ch (Z.to_nat o + t)%nat)
        ∧ labels c !! i
          = Some (take (Z.to_nat (2000 + 1)) (drop (Z.to_nat ((o + 2) * 200)) x.2)).
Proof.
  apply (collate_vocoder_crops_are_windows hp_example vocoder_batch_example
           [5; 3]%nat).
  - reflexivity.
  - discriminate.
  - discriminate.
  - repeat constructor; vm_compute; congruence.
Defined.

Lemma get_tts_dataset_exceptions_witness :
  get_tts_dataset (H:=binary32) hp_example storage_example 0
    = Raise ZeroDivisionError
  ∧ get_tts_dataset (H:=binary32) hp_example storage_example 3
    = Raise AssertionError.
Proof.
  destruct (get_tts_dataset_exceptions (H:=binary32) hp_example
              storage_example 0) as [_ Hzero].
  destruct (get_tts_dataset_exceptions (H:=binary32) hp_example
              storage_example 3) as [_ Hthree].
  split.
  - apply Hzero; [by eexists | by eexists | reflexivity | reflexivity].
  - apply Hthree; [by eexists | by eexists | reflexivity | discriminate
                  | discriminate].
Defined.

Lemma tts_sampler_yields_dataset_positions_witness :
  match get_tts_dataset (H:=binary32) hp_small storage_bins 32 with
  | Ok dl =>
      match dl_sampler dl with
      | Some s0 =>
          match (BinnedLengthSampler_iter s0 [7; 1; 8; 2; 8]%nat).1.1 with
          | Ok out =>
              BinnedLengthSampler_len s0 = TTSDataset_len (dl_dataset dl)
              ∧ ∀ i, i ∈ out →
                  ∃ id n,
                    filter (fun r => r.2 ≤ tts_max_input_len hp_small)
                      corpus_bins !! i = Some (id, n)
                    ∧ py_index (metadata (dl_dataset dl)) (Z.of_nat i) = Ok id
          | Raise _ => False
          end
      | None => False
      end
  | Raise _ => False
  end.
Proof.
  destruct (get_tts_dataset (H:=binary32) hp_small storage_bins 32)
    as [dl|e] eqn:Hget; [|vm_compute in Hget; discriminate Hget].
  destruct (dl_sampler dl) as [s0|] eqn:Hs.
  - destruct (BinnedLengthSampler_iter s0 [7; 1; 8; 2; 8]%nat).1.1
      as [out|e] eqn:Hr.
    + apply (tts_sampler_yields_dataset_positions (H:=binary32) hp_small
               storage_bins 32 dl corpus_bins s0 s0 [7; 1; 8; 2; 8]%nat out
               eq_refl Hget Hs (iterated_0 _) Hr).
    + vm_compute in Hget. injection Hget as <-.
      cbn [dl_sampler] in Hs. injection Hs as <-.
      vm_compute in Hr. discriminate Hr.
  - vm_compute in Hget. injection Hget as <-. discriminate Hs.
Defined.

Lemma tts_sampler_needs_a_full_bin_witness :
  match get_tts_dataset (H:=binary32) hp_example storage_example 32 with
  | Ok dl =>
      match dl_sampler dl with
      | Some s0 =>
          BinnedLengthSampler_iter s0 [7; 1; 8]%nat
            = (Raise ValueError, s0, [7; 1; 8]%nat)
      | None => False
      end
  | Raise _ => False
  end.
Proof.
  destruct (get_tts_dataset (H:=binary32) hp_example storage_example 32)
    as [dl|e] eqn:Hget; [|vm_compute in Hget; discriminate Hget].
  destruct (dl_sampler dl) as [s0|] eqn:Hs.
  - apply (tts_sampler_needs_a_full_bin (H:=binary32) hp_example
             storage_example 32 dl corpus_example s0 s0 [7; 1; 8]%nat
             eq_refl Hget Hs (iterated_0 _)).
    vm_compute in Hget. injection Hget as <-. reflexivity.
  - vm_compute in Hget. injection Hget as <-. discriminate Hs.
Defined.
